(** * live-noter: the webhook batching and incremental note synthesis pipeline

    A shallow embedding of [src/utils/webhook-manager.js],
    [src/utils/processor.js] and [src/utils/server.js], and the properties of
    the pipeline proved (or refuted) on it.

    Conventions of the embedding:
    - JavaScript values that travel through the pipeline are JSON values (plus
      [undefined]); they are the inductive type [JS.Value].  Numbers are the
      integer-valued ones, printed in plain decimal.
    - Strings are byte strings (UTF-8).  Every character the code inspects
      (the double quote, the backslash, white space, JSON control characters)
      is ASCII, so the byte view and the UTF-16 view agree on them; white space
      outside ASCII is not recognised by [JS.trim].
    - A JSON file holds the value last saved to it; [None] is a file that is
      missing or does not parse, which every loader of the code turns into a
      default.
    - Asynchronous functions are run to completion one after the other: an
      [IO] computation takes the world (the files and the server's variables)
      and returns a completion, normal or abrupt, with the new world. *)

From stdpp Require Import base option list strings pretty gmap.
From Stdlib Require Import ZArith Lia Ascii.
From Stdlib Require String.

Local Open Scope Z_scope.

(** ** JavaScript values and the built-ins the code calls *)

Module JS.

#[warnings="-register-all"]
Inductive Value : Type :=
| Undefined
| Null
| Bool (b : bool)
| Num (n : Z)
| Str (s : string)
| Arr (elems : list Value)
| Obj (props : list (string * Value)).

Inductive Error : Type :=
| TypeError (msg : string)
| PlainError (msg : string)
| SystemError (msg : string).

(** The result of running a piece of code: a value, or a thrown error. *)
Inductive Completion (A : Type) : Type :=
| Normal (a : A)
| Throw (e : Error).
Arguments Normal {A} a.
Arguments Throw {A} e.

Global Instance completion_ret : MRet Completion := @Normal.
Global Instance completion_bind : MBind Completion := λ A B f m,
  match m with
  | Normal a => f a
  | Throw e => Throw e
  end.

Definition dquote : ascii := "034"%char.
Definition backslash : ascii := "092"%char.
Definition dq : string := String dquote "".
Definition bs : string := String backslash "".

(** ToBoolean *)
Definition truthy (v : Value) : bool :=
  match v with
  | Undefined | Null => false
  | Bool b => b
  | Num n => negb (n =? 0)
  | Str s => negb (String.eqb s "")
  | Arr _ | Obj _ => true
  end.

(** [o.k] on an object built by JSON.parse, whose keys are distinct: the own
    property, or undefined. *)
Fixpoint lookup_prop (k : string) (props : list (string * Value)) : Value :=
  match props with
  | [] => Undefined
  | (k', v) :: rest => if String.eqb k k' then v else lookup_prop k rest
  end.

(** [v.k] for a key [k] that no prototype defines (such as [segments] and
    [text]): reading a property of [null] or [undefined] throws, primitives
    and arrays have no such property. *)
Definition get (v : Value) (k : string) : Completion Value :=
  match v with
  | Undefined => Throw (TypeError ("Cannot read properties of undefined (reading '" +:+ k +:+ "')"))
  | Null => Throw (TypeError ("Cannot read properties of null (reading '" +:+ k +:+ "')"))
  | Obj props => Normal (lookup_prop k props)
  | _ => Normal Undefined
  end.

(** Array.prototype.join on strings. *)
Definition join (sep : string) (parts : list string) : string :=
  String.concat sep parts.

(** [k in o], for an own property of an object built by JSON.parse. *)
Fixpoint has_prop (k : string) (props : list (string * Value)) : bool :=
  match props with
  | [] => false
  | (k', _) :: rest => String.eqb k k' || has_prop k rest
  end.

(** The name of [undefined] or [null] in an error message. *)
Definition nullish_name (v : Value) : string :=
  match v with
  | Undefined => "undefined"
  | _ => "null"
  end.

(** ToString.  An array prints as its elements joined with a comma, where
    [null] and [undefined] elements print as nothing.  A plain object prints
    through [Object.prototype.toString]; when it has an own [toString]
    property, which JSON.parse never makes callable, no method gives a
    primitive and the conversion throws. *)
Fixpoint ToString (v : Value) : Completion string :=
  match v with
  | Undefined => Normal "undefined"
  | Null => Normal "null"
  | Bool true => Normal "true"
  | Bool false => Normal "false"
  | Num n => Normal (pretty n)
  | Str s => Normal s
  | Arr elems =>
      parts ← mapM (fun e => match e with
                             | Undefined | Null => Normal ""
                             | _ => ToString e
                             end) elems;
      Normal (join "," parts)
  | Obj props =>
      if has_prop "toString" props
      then Throw (TypeError "Cannot convert object to primitive value")
      else Normal "[object Object]"
  end.

(** What Array.prototype.join makes of one element. *)
Definition join_elem (v : Value) : Completion string :=
  match v with
  | Undefined | Null => Normal ""
  | _ => ToString v
  end.

(** [arr.join(sep)] on an array of values; it throws when the conversion of
    an element does. *)
Definition Array_join (sep : string) (elems : list Value) : Completion string :=
  parts ← mapM join_elem elems;
  Normal (join sep parts).

Definition hex_digit (n : N) : ascii :=
  match n with
  | 0 => "0" | 1 => "1" | 2 => "2" | 3 => "3" | 4 => "4" | 5 => "5"
  | 6 => "6" | 7 => "7" | 8 => "8" | 9 => "9" | 10 => "a" | 11 => "b"
  | 12 => "c" | 13 => "d" | 14 => "e" | _ => "f"
  end%N%char.

(** One character inside a JSON string literal (QuoteJSONString). *)
Definition quote_char (c : ascii) : string :=
  let n := N_of_ascii c in
  if Ascii.eqb c dquote then bs +:+ dq
  else if Ascii.eqb c backslash then bs +:+ bs
  else if (n =? 8)%N then bs +:+ "b"
  else if (n =? 9)%N then bs +:+ "t"
  else if (n =? 10)%N then bs +:+ "n"
  else if (n =? 12)%N then bs +:+ "f"
  else if (n =? 13)%N then bs +:+ "r"
  else if (n <? 32)%N then
    bs +:+ "u00" +:+ String (hex_digit (n / 16)) (String (hex_digit (n mod 16)) "")
  else String c "".

Fixpoint quote_chars (s : string) : string :=
  match s with
  | EmptyString => ""
  | String c rest => quote_char c +:+ quote_chars rest
  end.

Definition QuoteJSONString (s : string) : string := dq +:+ quote_chars s +:+ dq.

(** JSON.stringify without indentation; [None] stands for the [undefined] it
    returns on [undefined]. *)
Fixpoint stringify (v : Value) : option string :=
  match v with
  | Undefined => None
  | Null => Some "null"
  | Bool true => Some "true"
  | Bool false => Some "false"
  | Num n => Some (pretty n)
  | Str s => Some (QuoteJSONString s)
  | Arr elems =>
      Some ("[" +:+ join "," (map (fun e => default "null" (stringify e)) elems) +:+ "]")
  | Obj props =>
      Some ("{" +:+
            join "," (omap (fun p => match p with
                                     | (k, e) =>
                                         match stringify e with
                                         | Some s => Some (QuoteJSONString k +:+ ":" +:+ s)
                                         | None => None
                                         end
                                     end) props) +:+ "}")
  end.

Definition JSON_stringify (v : Value) : Value :=
  match stringify v with
  | Some s => Str s
  | None => Undefined
  end.

(** White space for String.prototype.trim, on ASCII. *)
Definition is_white (c : ascii) : bool :=
  let n := N_of_ascii c in
  ((9 <=? n) && (n <=? 13) || (n =? 32))%N.

Fixpoint trimStart (s : string) : string :=
  match s with
  | EmptyString => ""
  | String c rest => if is_white c then trimStart rest else s
  end.

Definition trim (s : string) : string :=
  String.rev (trimStart (String.rev (trimStart s))).

(** [s.replace(/"/g, '\\"')]: every double quote gets a backslash in front. *)
Fixpoint replace_quotes (s : string) : string :=
  match s with
  | EmptyString => ""
  | String c rest =>
      if Ascii.eqb c dquote
      then String backslash (String dquote (replace_quotes rest))
      else String c (replace_quotes rest)
  end.

(** [arr.slice(start)] for an integer [start]; a negative [start] counts from
    the end, and [-0] is [0]. *)
Definition slice_from {A} (start : Z) (l : list A) : list A :=
  let len := Z.of_nat (length l) in
  let k := if start <? 0 then Z.max (len + start) 0 else Z.min start len in
  drop (Z.to_nat k) l.

(** [arr.slice(i, j)] for non-negative [i] and [j]. *)
Definition slice {A} (i j : nat) (l : list A) : list A :=
  take (j - i) (drop i l).

End JS.

Import JS.

(** ** The persisted records and the world *)

(** One stored fragment, an element of webhooks.json.  [receivedAt] is the
    instant that the stored ISO string denotes, in milliseconds. *)
Record Webhook : Type := {
  id : string;
  data : Value;
  receivedAt : Z
}.

(** The content of processed.json.  A field the file may lack is an option. *)
Module Processed.
Record t : Type := {
  processedIds : option (list string);
  lastProcessedAt : option Z;
  totalProcessed : option Z
}.
End Processed.

(** The content of processor_state.json. *)
Module State.
Record t : Type := {
  lastProcessed : string;
  processedCount : Z;
  lastProcessedAt : option Z
}.
End State.

Record World : Type := {
  webhooksFile : option (list Webhook);      (* webhooks.json *)
  processedFile : option Processed.t;        (* processed.json *)
  stateFile : option State.t;                (* processor_state.json *)
  promptFile : option string;                (* last_prompt.txt *)
  styleFile : option string;                 (* style.txt *)
  documents : gmap string string;            (* the note files, by path *)
  currentNotesFilePath : option string;      (* server.js, null at start *)
  processingInterval : bool                  (* server.js, the timer is set *)
}.

Definition set_webhooksFile (x : option (list Webhook)) (w : World) : World :=
  {| webhooksFile := x; processedFile := processedFile w; stateFile := stateFile w;
     promptFile := promptFile w; styleFile := styleFile w; documents := documents w;
     currentNotesFilePath := currentNotesFilePath w;
     processingInterval := processingInterval w |}.

Definition set_processedFile (x : option Processed.t) (w : World) : World :=
  {| webhooksFile := webhooksFile w; processedFile := x; stateFile := stateFile w;
     promptFile := promptFile w; styleFile := styleFile w; documents := documents w;
     currentNotesFilePath := currentNotesFilePath w;
     processingInterval := processingInterval w |}.

Definition set_stateFile (x : option State.t) (w : World) : World :=
  {| webhooksFile := webhooksFile w; processedFile := processedFile w; stateFile := x;
     promptFile := promptFile w; styleFile := styleFile w; documents := documents w;
     currentNotesFilePath := currentNotesFilePath w;
     processingInterval := processingInterval w |}.

Definition set_promptFile (x : option string) (w : World) : World :=
  {| webhooksFile := webhooksFile w; processedFile := processedFile w;
     stateFile := stateFile w; promptFile := x; styleFile := styleFile w;
     documents := documents w; currentNotesFilePath := currentNotesFilePath w;
     processingInterval := processingInterval w |}.

Definition set_documents (x : gmap string string) (w : World) : World :=
  {| webhooksFile := webhooksFile w; processedFile := processedFile w;
     stateFile := stateFile w; promptFile := promptFile w; styleFile := styleFile w;
     documents := x; currentNotesFilePath := currentNotesFilePath w;
     processingInterval := processingInterval w |}.

Definition set_currentNotesFilePath (x : option string) (w : World) : World :=
  {| webhooksFile := webhooksFile w; processedFile := processedFile w;
     stateFile := stateFile w; promptFile := promptFile w; styleFile := styleFile w;
     documents := documents w; currentNotesFilePath := x;
     processingInterval := processingInterval w |}.

Definition set_processingInterval (x : bool) (w : World) : World :=
  {| webhooksFile := webhooksFile w; processedFile := processedFile w;
     stateFile := stateFile w; promptFile := promptFile w; styleFile := styleFile w;
     documents := documents w; currentNotesFilePath := currentNotesFilePath w;
     processingInterval := x |}.

(** What the LLM subprocess does with a prompt: the exit code ([None] when a
    signal ended it) and its two output streams. *)
Record Exit : Type := {
  code : option Z;
  stdout : string;
  stderr : string
}.

(** Everything a run depends on that the code does not decide: the process
    environment, the subprocess, the clock, the random part of an id, and
    which file operations fail. *)
Record Env : Type := {
  ANTHROPIC_API_KEY : option string;
  anthropic_api_key : option string;
  CLAUDE_API_KEY : option string;
  llm : string → string → Exit;       (* API key, prompt *)
  now : Z;                            (* Date.now(), milliseconds *)
  freshId : string;                   (* the id addWebhook computes *)
  writeWebhooksFails : bool;
  writeProcessedFails : bool;
  writeStateFails : bool;
  writePromptFails : bool;
  appendFails : bool;                 (* mkdir or appendFile of the notes *)
  writeNotesFails : bool              (* the writeFile that replaces it *)
}.

(** ** Computations over the world *)

Definition IO (A : Type) : Type := World → Completion A * World.

Global Instance IO_ret : MRet IO := λ A a w, (Normal a, w).
Global Instance IO_bind : MBind IO := λ A B f m w,
  match m w with
  | (Normal a, w') => f a w'
  | (Throw e, w') => (Throw e, w')
  end.

Definition throw {A} (e : Error) : IO A := λ w, (Throw e, w).

(** Lifts a computation that does not touch the world. *)
Definition liftC {A} (c : Completion A) : IO A := λ w, (c, w).

Definition try_catch {A} (body : IO A) (handler : Error → IO A) : IO A := λ w,
  match body w with
  | (Normal a, w') => (Normal a, w')
  | (Throw e, w') => handler e w'
  end.

Definition run {A} (m : IO A) (w : World) : World := (m w).2.
Definition result {A} (m : IO A) (w : World) : Completion A := (m w).1.

Definition writeFile (fails : bool) (update : World → World) : IO unit := λ w,
  if fails then (Throw (SystemError "write failed"), w) else (Normal tt, update w).

(** ** webhook-manager.js *)

Module WebhookManager.

(** CONFIG *)
Definition batchSize : nat := 10.
Definition mergeSeparator : string := " ".

Definition is_string (v : Value) : bool :=
  match v with
  | Str _ => true
  | _ => false
  end.

(** [data && data.k] *)
Definition and_get (v : Value) (k : string) : Completion Value :=
  if truthy v then get v k else Normal v.

(** [v.map(f)]: only an array has a [map] method. *)
Definition Array_map (recv : string) (f : Value → Completion Value) (v : Value)
  : Completion (list Value) :=
  match v with
  | Arr elems => mapM f elems
  | Undefined | Null =>
      Throw (TypeError ("Cannot read properties of " +:+ nullish_name v +:+ " (reading 'map')"))
  | _ => Throw (TypeError (recv +:+ ".map is not a function"))
  end.

Definition extractTextFromData (data : Value) : Completion Value :=
  if is_string data then Normal data
  else
    segments ← and_get data "segments";
    if truthy segments then
      texts ← Array_map "data.segments" (λ segment, get segment "text") segments;
      joined ← Array_join " " texts;
      Normal (Str joined)
    else
      text ← and_get data "text";
      if truthy text then Normal text
      else Normal (JSON_stringify data).

Definition loadWebhooks : IO (list Webhook) := λ w,
  (Normal (default [] (webhooksFile w)), w).

Definition saveWebhooks (env : Env) (webhooks : list Webhook) : IO unit :=
  writeFile (writeWebhooksFails env) (set_webhooksFile (Some webhooks)).

Definition defaultProcessed : Processed.t :=
  {| Processed.processedIds := Some [];
     Processed.lastProcessedAt := None;
     Processed.totalProcessed := None |}.

Definition loadProcessed : IO Processed.t := λ w,
  (Normal (default defaultProcessed (processedFile w)), w).

Definition saveProcessed (env : Env) (processed : Processed.t) : IO unit :=
  writeFile (writeProcessedFails env) (set_processedFile (Some processed)).

Definition addWebhook (env : Env) (data : Value) : IO (option Webhook) :=
  if negb (truthy data) then mret None
  else
    webhooks ← loadWebhooks;
    let newWebhook := {| id := freshId env; data := data; receivedAt := now env |} in
    _ ← saveWebhooks env (webhooks ++ [newWebhook]);
    mret (Some newWebhook).

(** [ids.includes(x)] *)
Definition includes (ids : list string) (x : string) : bool :=
  bool_decide (x ∈ ids).

(** The webhooks whose id is not among the processed ones, in file order. *)
Definition unprocessedOf (processedIds : list string) (webhooks : list Webhook)
  : list Webhook :=
  List.filter (λ w, negb (includes processedIds (id w))) webhooks.

Record Batch : Type := {
  items : list Webhook;
  mergedText : string;
  nextText : Value;
  hasMore : bool
}.

Definition getUnprocessedBatch : IO (option Batch) :=
  webhooks ← loadWebhooks;
  processed ← loadProcessed;
  let processedIds := default [] (Processed.processedIds processed) in
  let unprocessed := unprocessedOf processedIds webhooks in
  if (length unprocessed =? 0)%nat then mret None
  else
    let batch := slice 0 batchSize unprocessed in
    let nextBatch := slice batchSize (batchSize * 2) unprocessed in
    texts ← liftC (mapM (λ item, extractTextFromData (data item)) batch);
    merged ← liftC (Array_join mergeSeparator texts);
    next ← liftC (match nextBatch with
                  | first :: _ => extractTextFromData (data first)
                  | [] => Normal (Str "")
                  end);
    mret (Some {| items := batch;
                  mergedText := merged;
                  nextText := next;
                  hasMore := (batchSize <? length unprocessed)%nat |}).

Definition markBatchProcessed (env : Env) (batchItems : list Webhook) : IO unit :=
  if (length batchItems =? 0)%nat then mret ()
  else
    processed ← loadProcessed;
    let newIds := map id batchItems in
    let processedIds := default [] (Processed.processedIds processed) in
    saveProcessed env
      {| Processed.processedIds := Some (processedIds ++ newIds);
         Processed.lastProcessedAt := Some (now env);
         Processed.totalProcessed :=
           Some (default 0 (Processed.totalProcessed processed)
                 + Z.of_nat (length newIds)) |}.

Record Stats : Type := {
  total : Z;
  processed : Z;
  pending : Z;
  stats_lastProcessedAt : option Z;
  stats_batchSize : nat
}.

Definition getStats : IO Stats :=
  webhooks ← loadWebhooks;
  processed ← loadProcessed;
  let processedCount :=
    match Processed.processedIds processed with
    | Some ids => Z.of_nat (length ids)
    | None => 0
    end in
  mret {| total := Z.of_nat (length webhooks);
          processed := processedCount;
          pending := Z.of_nat (length webhooks) - processedCount;
          stats_lastProcessedAt := Processed.lastProcessedAt processed;
          stats_batchSize := batchSize |}.

Definition msPerDay : Z := 86400000.

(** [processed.processedIds.m(...)]: throws when the field is missing. *)
Definition processedIds_for (m : string) (processed : Processed.t)
  : Completion (list string) :=
  match Processed.processedIds processed with
  | Some ids => Normal ids
  | None => Throw (TypeError ("Cannot read properties of undefined (reading '" +:+ m +:+ "')"))
  end.

(** The callback of the filter in [cleanup]: false for a webhook to remove. *)
Definition keeps (cutoff : Z) (processed : Processed.t) (w : Webhook)
  : Completion bool :=
  let isOld := receivedAt w <? cutoff in
  ids ← processedIds_for "includes" processed;
  let isProcessed := includes ids (id w) in
  Normal (negb (isOld && isProcessed)).

(** [arr.filter(f)] for a callback that may throw. *)
Fixpoint filterM {A} (f : A → Completion bool) (l : list A) : Completion (list A) :=
  match l with
  | [] => Normal []
  | x :: rest =>
      keep ← f x;
      kept ← filterM f rest;
      Normal (if (keep : bool) then x :: kept else kept)
  end.

(** The cutoff is [keepDays] days before now; the model takes a day as
    24 hours, where [setDate] follows the local calendar. *)
Definition cleanup (env : Env) (keepDays : Z) : IO Z :=
  let cutoff := now env - keepDays * msPerDay in
  webhooks ← loadWebhooks;
  processed ← loadProcessed;
  filtered ← liftC (filterM (keeps cutoff processed) webhooks);
  let remainingIds := map id filtered in
  ids ← liftC (processedIds_for "filter" processed);
  let processed' :=
    {| Processed.processedIds := Some (List.filter (includes remainingIds) ids);
       Processed.lastProcessedAt := Processed.lastProcessedAt processed;
       Processed.totalProcessed := Processed.totalProcessed processed |} in
  _ ← saveWebhooks env filtered;
  _ ← saveProcessed env processed';
  mret (Z.of_nat (length webhooks) - Z.of_nat (length filtered)).

Definition limitWebhooks (env : Env) (maxCount : Z) : IO Z :=
  webhooks ← loadWebhooks;
  if maxCount <? Z.of_nat (length webhooks) then
    let limited := slice_from (- maxCount) webhooks in
    _ ← saveWebhooks env limited;
    processed ← loadProcessed;
    let remainingIds := map id limited in
    ids ← liftC (processedIds_for "filter" processed);
    _ ← saveProcessed env
          {| Processed.processedIds := Some (List.filter (includes remainingIds) ids);
             Processed.lastProcessedAt := Processed.lastProcessedAt processed;
             Processed.totalProcessed := Processed.totalProcessed processed |};
    mret (Z.of_nat (length webhooks) - Z.of_nat (length limited))
  else mret 0.

Definition resetProcessed (env : Env) : IO unit :=
  saveProcessed env defaultProcessed.

(** [item.text] on a stored webhook: [addWebhook] gives it the fields [id],
    [data] and [receivedAt], and no [text]. *)
Definition webhook_text (item : Webhook) : Value := Undefined.

Record Unprocessed : Type := {
  all_items : list Webhook;
  all_mergedText : string;
  count : nat
}.

Definition getAllUnprocessed : IO Unprocessed :=
  webhooks ← loadWebhooks;
  processed ← loadProcessed;
  let processedIds := default [] (Processed.processedIds processed) in
  let unprocessed := unprocessedOf processedIds webhooks in
  merged ← liftC (Array_join mergeSeparator
                    (map (λ item, webhook_text item) unprocessed));
  mret {| all_items := unprocessed;
          all_mergedText := merged;
          count := length unprocessed |}.

End WebhookManager.

(** ** processor.js *)

Module Processor.

(** CONFIG.outputFile, relative to the working directory *)
Definition outputFile : string := "final_notes.md".

Definition nl : string := String "010"%char "".

Definition defaultState : State.t :=
  {| State.lastProcessed := "";
     State.processedCount := 0;
     State.lastProcessedAt := None |}.

Definition loadState : IO State.t := λ w,
  (Normal (default defaultState (stateFile w)), w).

Definition loadUserStyle : IO string := λ w,
  (Normal (match styleFile w with
           | Some styleContent => trim styleContent
           | None => ""
           end), w).

Definition saveState (env : Env) (state : State.t) : IO unit :=
  writeFile (writeStateFails env) (set_stateFile (Some state)).

(** The fixed parts of the template of [buildPrompt]. *)
Definition prompt_role : string :=
  "You are a note taking expert. Here is a part of audio processed, so "
  +:+ "it might contain small errors on recognizing what the word is. If "
  +:+ "it does not make sense to you, maybe search for some word of "
  +:+ "similar pronunciation that fits in the topic. ".

Definition prompt_instructions : string :=
  "IGNORE unfinished text if it seems like it is cut off from a "
  +:+ "previous batch that was processed, and if it does not conclude "
  +:+ "within this text, try to comprehend what it means from next one, "
  +:+ "and only add the next one's part that can be connected to the "
  +:+ "unfinished sentence. Also check from last styled piece of styled "
  +:+ "note processed by LLM, do not double process because you will "
  +:+ "append the text to where the last one processed ends.".

Definition prompt_question : string :=
  "What will you output? ONLY PROCESS THE PIECE OF NOTE YOU WILL TAKE "
  +:+ "WITH THIS TEXT (in markdown form) following the user's note-taking "
  +:+ "style above. DO NOT OVER PROCESS.".

(** [v.replace(/"/g, '\\"')] on a value; only a string has the method. *)
Definition escape (name : string) (v : Value) : Completion string :=
  match v with
  | Str s => Normal (replace_quotes s)
  | Undefined | Null =>
      Throw (TypeError ("Cannot read properties of " +:+ nullish_name v +:+ " (reading 'replace')"))
  | _ => Throw (TypeError (name +:+ ".replace is not a function"))
  end.

(** A parameter declared [nextText = '']. *)
Definition or_empty (v : Value) : Value :=
  match v with
  | Undefined => Str ""
  | _ => v
  end.

Definition styleSection (userStyle : string) : string :=
  if String.eqb userStyle "" then ""
  else nl +:+ "USER'S NOTE-TAKING STYLE (follow this style when creating notes):"
       +:+ nl +:+ userStyle +:+ nl +:+ nl +:+ "---" +:+ nl +:+ nl.

(** The text of the prompt once the three values are escaped. *)
Definition prompt_text (userStyle last main next : string) : string :=
  prompt_role +:+ nl +:+ nl
  +:+ styleSection userStyle +:+ prompt_instructions +:+ nl +:+ nl
  +:+ "Last one processed: " +:+ dq +:+ last +:+ dq +:+ nl
  +:+ "Main text: " +:+ dq +:+ main +:+ dq +:+ nl
  +:+ "Next one to process: " +:+ dq +:+ next +:+ dq +:+ nl +:+ nl
  +:+ prompt_question.

Definition buildPrompt (lastProcessed mainText : string) (nextText : Value)
  : IO string :=
  let nextText := or_empty nextText in
  userStyle ← loadUserStyle;
  next ← liftC (escape "nextText" nextText);
  mret (prompt_text userStyle (replace_quotes lastProcessed)
          (replace_quotes mainText) next).

(** [a || b] on environment variables: an unset or empty one is falsy. *)
Definition env_or (a b : option string) : option string :=
  match a with
  | Some s => if String.eqb s "" then b else a
  | None => b
  end.

Definition apiKeyOf (env : Env) : option string :=
  env_or (env_or (ANTHROPIC_API_KEY env) (anthropic_api_key env)) (CLAUDE_API_KEY env).

Definition code_text (c : option Z) : string :=
  match c with
  | Some n => pretty n
  | None => "null"
  end.

Definition callLLM (env : Env) (prompt : string) : IO string :=
  match apiKeyOf env with
  | None | Some "" =>
      throw (PlainError
        "ANTHROPIC_API_KEY not found. Set it with: export ANTHROPIC_API_KEY=your_key")
  | Some apiKey =>
      let py := llm env apiKey prompt in
      if bool_decide (code py = Some 0) then mret (trim (stdout py))
      else throw (PlainError ("LLM failed (" +:+ code_text (code py) +:+ "): " +:+ stderr py))
  end.

Definition appendFile (env : Env) (outputPath content : string) : IO unit := λ w,
  if appendFails env then (Throw (SystemError "append failed"), w)
  else (Normal tt,
        set_documents
          (<[outputPath := default "" (documents w !! outputPath) +:+ content]>
             (documents w)) w).

Definition writeNotes (env : Env) (outputPath content : string) : IO unit := λ w,
  if writeNotesFails env then (Throw (SystemError "write failed"), w)
  else (Normal tt, set_documents (<[outputPath := content]> (documents w)) w).

Definition appendToOutput (env : Env) (content outputPath : string) : IO unit :=
  if String.eqb content "" then mret tt
  else
    try_catch (appendFile env outputPath (content +:+ nl +:+ nl))
      (λ _, writeNotes env outputPath (content +:+ nl +:+ nl)).

(** [outputPath || CONFIG.outputFile] *)
Definition path_or (outputPath : option string) (fallback : string) : string :=
  match outputPath with
  | Some p => if String.eqb p "" then fallback else p
  | None => fallback
  end.

Definition processBatch (env : Env) (mergedText : string) (nextText : Value)
    (outputPath : option string) : IO (option string) :=
  let nextText := or_empty nextText in
  if String.eqb (trim mergedText) "" then mret None
  else
    let finalOutputPath := path_or outputPath outputFile in
    try_catch
      (state ← loadState;
       prompt ← buildPrompt (State.lastProcessed state) mergedText nextText;
       _ ← writeFile (writePromptFails env) (set_promptFile (Some prompt));
       processedContent ← callLLM env prompt;
       if String.eqb processedContent "" then
         throw (PlainError "LLM returned empty content")
       else
         _ ← appendToOutput env processedContent finalOutputPath;
         let newState :=
           {| State.lastProcessed := processedContent;
              State.processedCount := State.processedCount state + 1;
              State.lastProcessedAt := Some (now env) |} in
         _ ← saveState env newState;
         mret (Some processedContent))
      (λ error, throw error).

Definition resetState (env : Env) : IO unit :=
  saveState env defaultState.

Definition getStatus : IO State.t := loadState.

End Processor.

(** ** server.js *)

Module Server.

Import WebhookManager Processor.

Inductive Response : Type :=
| Success (message : string) (notesFilePath : option string)
| ServerError (error : string).

(** The timer callback. *)
Definition processWebhooks (env : Env) : IO unit :=
  try_catch
    (batch ← getUnprocessedBatch;
     match batch with
     | None => mret tt
     | Some batch =>
         path ← (λ w, (Normal (currentNotesFilePath w), w)) : IO (option string);
         _ ← processBatch env (mergedText batch) (nextText batch) path;
         _ ← markBatchProcessed env (items batch);
         mret tt
     end)
    (λ error, mret tt).

(** POST /webhook, on the decoded request body. *)
Definition webhook (env : Env) (body : Value) : IO Response :=
  try_catch
    (_ ← addWebhook env body;
     mret (Success "Webhook received" None))
    (λ error, mret (ServerError "Server error")).

(** [a] if truthy, as a path *)
Definition nonempty (p : option string) : bool :=
  match p with
  | Some s => negb (String.eqb s "")
  | None => false
  end.

(** POST /start-recording *)
Definition start_recording (currentFilePath fallbackPath : option string)
  : IO Response := λ w,
  let chosen :=
    if nonempty currentFilePath then currentFilePath
    else if nonempty fallbackPath then fallbackPath
    else Some outputFile in
  (Normal (Success "Recording started" chosen), set_currentNotesFilePath chosen w).

(** POST /stop-recording *)
Definition stop_recording : IO Response := λ w,
  (Normal (Success "Recording stopped" (currentNotesFilePath w)), w).

(** The callback of [app.listen]: sets the ten-second timer. *)
Definition listen : IO unit := λ w,
  (Normal tt, set_processingInterval true w).

End Server.

(** * Vocabulary of the properties *)

Module Spec.

Import WebhookManager Processor Server.

Definition is_Normal {A} (c : Completion A) : Prop :=
  match c with
  | Normal _ => True
  | Throw _ => False
  end.

(** The processed ids a loaded tracker stands for. *)
Definition consumedIds (w : World) : list string :=
  default [] (Processed.processedIds (default defaultProcessed (processedFile w))).

(** The unconsumed fragments of a world, in the order of the store. *)
Definition unconsumed (w : World) : list Webhook :=
  unprocessedOf (consumedIds w) (default [] (webhooksFile w)).

(** The text a fragment contributes to the merged text: its extracted value
    as [join] prints it. *)
Definition item_text (item : Webhook) : Completion string :=
  v ← extractTextFromData (data item);
  join_elem v.

Definition extractedText (item : Webhook) : string :=
  match item_text item with
  | Normal s => s
  | Throw _ => ""
  end.


(** Neither extraction of the payload nor the conversion of the extracted
    value that [join] makes throws. *)
Definition printable (item : Webhook) : Prop :=
  is_Normal (item_text item).


(** A value that ToString converts: neither an object with an own
    [toString] property nor a list that holds one, at any depth. *)
Fixpoint stringable (v : Value) : bool :=
  match v with
  | Arr elems =>
      forallb (fun e => match e with
                        | Undefined | Null => true
                        | _ => stringable e
                        end) elems
  | Obj props => negb (has_prop "toString" props)
  | _ => true
  end.

(** A value that [join] converts. *)
Definition joinable (v : Value) : bool :=
  match v with
  | Undefined | Null => true
  | _ => stringable v
  end.

(** The batch as a function of the unconsumed fragments. *)
Definition batchOf (u : list Webhook) : Completion (option Batch) :=
  match u with
  | [] => Normal None
  | _ :: _ =>
      texts ← mapM (λ item, extractTextFromData (data item)) (take batchSize u);
      merged ← Array_join mergeSeparator texts;
      next ← match drop batchSize u with
             | first :: _ => extractTextFromData (data first)
             | [] => Normal (Str "")
             end;
      Normal (Some {| items := take batchSize u;
                      mergedText := merged;
                      nextText := next;
                      hasMore := (batchSize <? length u)%nat |})
  end.


(** *** Sample worlds *)

(** A world that holds a store and a tracker and nothing else. *)
Definition world_of (store : list Webhook) (tracker : option Processed.t) : World :=
  {| webhooksFile := Some store; processedFile := tracker; stateFile := None;
     promptFile := None; styleFile := None; documents := ∅;
     currentNotesFilePath := None; processingInterval := true |}.

(** The [n]-th one-word fragment, with text ["w" n]. *)
Definition fragment (n : Z) : Webhook :=
  {| id := "id-" +:+ pretty n; data := Str ("w" +:+ pretty n); receivedAt := n |}.

(** The fragments ["w1"] to ["w" n], in the order received. *)
Definition fragments (n : nat) : list Webhook := map fragment (seqZ 1 (Z.of_nat n)).

(** The claim that [hasMore] tells whether fragments exist beyond the
    look-ahead fragment. *)
Definition hasMore_beyond_lookahead (w : World) (b : Batch) : Prop :=
  hasMore b = true ↔ (batchSize + 1 < length (unconsumed w))%nat.


(** An environment at time [t] with a credential and no failing file
    operation, whose subprocess answers every prompt with [answer]. *)
Definition env_at (t : Z) (answer : Exit) : Env :=
  {| ANTHROPIC_API_KEY := Some "sk-test"; anthropic_api_key := None;
     CLAUDE_API_KEY := None; llm := λ _ _, answer; now := t;
     freshId := "1000-k3j9x2m1q"; writeWebhooksFails := false;
     writeProcessedFails := false; writeStateFails := false;
     writePromptFails := false; appendFails := false; writeNotesFails := false |}.

Definition env_answering (answer : Exit) : Env := env_at 1000 answer.

Definition exit_ok (out : string) : Exit :=
  {| code := Some 0; stdout := out; stderr := "" |}.

(** *** Reading a double-quoted literal

    How a reader that honours backslash escapes delimits a literal: given the
    text after the opening quote, the body up to the first quote that no
    backslash escapes, and the text after that quote.  [None] when the
    literal never closes. *)
Fixpoint read_literal (s : string) : option (string * string) :=
  match s with
  | EmptyString => None
  | String c rest =>
      if Ascii.eqb c dquote then Some ("", rest)
      else if Ascii.eqb c backslash then
        match rest with
        | EmptyString => None
        | String c' rest' =>
            match read_literal rest' with
            | Some (body, after) => Some (String c (String c' body), after)
            | None => None
            end
        end
      else
        match read_literal rest with
        | Some (body, after) => Some (String c body, after)
        | None => None
        end
  end.

(** An embedded value keeps its literal intact when the literal, read from
    the escaped value on, closes at the quote the template puts after it. *)
Definition literal_intact (value : string) : Prop :=
  ∀ after, read_literal (replace_quotes value +:+ dq +:+ after)
           = Some (replace_quotes value, after).

(** Every double quote of [s] has a backslash right before it; [prev] tells
    whether the character before [s] is a backslash. *)
Fixpoint quotes_follow_backslash (prev : bool) (s : string) : bool :=
  match s with
  | EmptyString => true
  | String c rest =>
      (if Ascii.eqb c dquote then prev else true)
      && quotes_follow_backslash (Ascii.eqb c backslash) rest
  end.

Fixpoint has_backslash (s : string) : bool :=
  match s with
  | EmptyString => false
  | String c rest => Ascii.eqb c backslash || has_backslash rest
  end.


(** *** The Scheduler tick *)

(** The state a tick loads for the prompt. *)
Definition synthesisState (w : World) : State.t :=
  default defaultState (stateFile w).

(** The document the tick writes to. *)
Definition destination (w : World) : string :=
  path_or (currentNotesFilePath w) outputFile.

(** The prompt with which the tick calls the gateway, when it gets that far:
    there is a batch, its merged text is not blank, the prompt is built and
    saved to the prompt file. *)
Definition tick_prompt (env : Env) (w : World) : option string :=
  match result getUnprocessedBatch w with
  | Normal (Some b) =>
      if String.eqb (trim (mergedText b)) "" then None
      else
        match result (buildPrompt (State.lastProcessed (synthesisState w))
                        (mergedText b) (nextText b)) w with
        | Normal prompt => if writePromptFails env then None else Some prompt
        | Throw _ => None
        end
  | _ => None
  end.

(** The failures of the gateway call on a prompt: no credential, an exit
    code other than zero, or an output that is empty once trimmed. *)
Definition gateway_fails (env : Env) (prompt : string) : Prop :=
  match apiKeyOf env with
  | None | Some "" => True
  | Some apiKey =>
      code (llm env apiKey prompt) ≠ Some 0
      ∨ trim (stdout (llm env apiKey prompt)) = ""
  end.

(** The text the gateway returns on a prompt, when the call succeeds with
    content. *)
Definition synthesized (env : Env) (prompt content : string) : Prop :=
  content ≠ ""
  ∧ ∃ apiKey, apiKeyOf env = Some apiKey ∧ apiKey ≠ ""
              ∧ code (llm env apiKey prompt) = Some 0
              ∧ trim (stdout (llm env apiKey prompt)) = content.

(** The document at [path] after [content] was written to it: appended, or,
    when appending fails, written as the whole document. *)
Definition written_to (env : Env) (before after : gmap string string)
    (path content : string) : Prop :=
  if appendFails env
  then writeNotesFails env = false
       ∧ after !! path = Some (content +:+ nl +:+ nl)
  else after !! path = Some (default "" (before !! path) +:+ content +:+ nl +:+ nl).


(** *** The operations of the system *)

(** The fragments in the store, in the order received. *)
Definition store (w : World) : list Webhook := default [] (webhooksFile w).

(** Every exported function of the three modules and every entry point of
    the server. *)
Inductive Op : Type :=
| AddWebhook (data : Value)
| GetUnprocessedBatch
| MarkBatchProcessed (batchItems : list Webhook)
| GetStats
| Cleanup (keepDays : Z)
| LimitWebhooks (maxCount : Z)
| ResetProcessed
| GetAllUnprocessed
| ProcessBatch (mergedText : string) (nextText : Value) (outputPath : option string)
| ResetState
| GetStatus
| ProcessWebhooks
| PostWebhook (body : Value)
| StartRecording (currentFilePath fallbackPath : option string)
| StopRecording
| Listen.

(** The world after an operation. *)
Definition exec (env : Env) (op : Op) (w : World) : World :=
  match op with
  | AddWebhook data => run (addWebhook env data) w
  | GetUnprocessedBatch => run getUnprocessedBatch w
  | MarkBatchProcessed batchItems => run (markBatchProcessed env batchItems) w
  | GetStats => run getStats w
  | Cleanup keepDays => run (cleanup env keepDays) w
  | LimitWebhooks maxCount => run (limitWebhooks env maxCount) w
  | ResetProcessed => run (resetProcessed env) w
  | GetAllUnprocessed => run getAllUnprocessed w
  | ProcessBatch mergedText nextText outputPath =>
      run (processBatch env mergedText nextText outputPath) w
  | ResetState => run (resetState env) w
  | GetStatus => run getStatus w
  | ProcessWebhooks => run (processWebhooks env) w
  | PostWebhook body => run (webhook env body) w
  | StartRecording currentFilePath fallbackPath =>
      run (start_recording currentFilePath fallbackPath) w
  | StopRecording => run stop_recording w
  | Listen => run listen w
  end.

(** The fragment that ingestion of [data] stores. *)
Definition ingested (env : Env) (data : Value) : Webhook :=
  {| id := freshId env; data := data; receivedAt := now env |}.

(** A computation that leaves the store alone. *)
Definition keeps_store {A} (m : IO A) : Prop :=
  ∀ w, webhooksFile (run m w) = webhooksFile w.

(** The test of the filter in [cleanup], for a tracker that has its ids. *)
Definition retained (cutoff : Z) (ids : list string) (f : Webhook) : bool :=
  negb ((receivedAt f <? cutoff) && includes ids (id f)).

(** A tracker that holds the given ids. *)
Definition tracker_of (ids : list string) : Processed.t :=
  {| Processed.processedIds := Some ids;
     Processed.lastProcessedAt := None;
     Processed.totalProcessed := Some (Z.of_nat (length ids)) |}.

(** The claim that only retention cleanup removes a fragment, and only a
    consumed one older than the retention window. *)
Definition removed_only_by_cleanup (env : Env) (op : Op) (w : World) : Prop :=
  ∀ f, f ∈ store w → f ∉ store (exec env op w) →
       ∃ keepDays, op = Cleanup keepDays
                   ∧ id f ∈ consumedIds w
                   ∧ receivedAt f < now env - keepDays * msPerDay.


(** *** Shapes of payloads *)

(** [data.segments] and [data.text] as extraction reads them: only an object
    has them. *)
Definition segments_of (data : Value) : Value :=
  match data with
  | Obj props => lookup_prop "segments" props
  | _ => Undefined
  end.

Definition text_of (data : Value) : Value :=
  match data with
  | Obj props => lookup_prop "text" props
  | _ => Undefined
  end.

(** No element is [null] or [undefined]. *)
Definition no_null (elems : list Value) : Prop :=
  Forall (λ e, e ≠ Null ∧ e ≠ Undefined) elems.

(** A segment object whose [text] is the string [t]. *)
Definition segment_with_text (segment : Value) (t : string) : Prop :=
  ∃ props, segment = Obj props ∧ lookup_prop "text" props = Str t.


(** *** Undoing the escaping *)

(** Removes the backslash in front of each double quote. *)
Fixpoint unescape_quotes (s : string) : string :=
  match s with
  | EmptyString => ""
  | String c rest =>
      match rest with
      | EmptyString => String c ""
      | String c' rest' =>
          if Ascii.eqb c backslash && Ascii.eqb c' dquote
          then String dquote (unescape_quotes rest')
          else String c (unescape_quotes rest)
      end
  end.

(** The first character of [s] is a double quote. *)
Definition starts_with_quote (s : string) : bool :=
  match s with
  | String c _ => Ascii.eqb c dquote
  | EmptyString => false
  end.

(** The message of the error that [callLLM] raises without a credential. *)
Definition no_credential : Error :=
  PlainError "ANTHROPIC_API_KEY not found. Set it with: export ANTHROPIC_API_KEY=your_key".


(** *** The commit of a tick *)

(** The content of the document at [path], empty when it does not exist. *)
Definition document (w : World) (path : string) : string :=
  default "" (documents w !! path).

(** What a synthesized text adds to a document. *)
Definition note (content : string) : string := content +:+ nl +:+ nl.

(** The tracker a world stands for. *)
Definition tracker (w : World) : Processed.t :=
  default defaultProcessed (processedFile w).

(** The state the tick saves after it wrote [content]. *)
Definition committed_state (env : Env) (w : World) (content : string) : State.t :=
  {| State.lastProcessed := content;
     State.processedCount := State.processedCount (synthesisState w) + 1;
     State.lastProcessedAt := Some (now env) |}.

(** The tracker the tick saves after it marked the items of a batch. *)
Definition committed_tracker (env : Env) (w : World) (batchItems : list Webhook)
  : Processed.t :=
  {| Processed.processedIds := Some (consumedIds w ++ map id batchItems);
     Processed.lastProcessedAt := Some (now env);
     Processed.totalProcessed :=
       Some (default 0 (Processed.totalProcessed (tracker w))
             + Z.of_nat (length (map id batchItems))) |}.

(** The path that start-recording chooses. *)
Definition chosen_path (currentFilePath fallbackPath : option string) : string :=
  if nonempty currentFilePath then default "" currentFilePath
  else if nonempty fallbackPath then default "" fallbackPath
  else outputFile.


(** [m] takes every world to one that [R] relates to it. *)
Definition preserves (R : World → World → Prop) {A} (m : IO A) : Prop :=
  ∀ w, R w (run m w).

(** The documents other than the one at [dest] are the same in both worlds. *)
Definition same_documents_except (dest : string) (w w' : World) : Prop :=
  ∀ p, p ≠ dest → documents w' !! p = documents w !! p.

(** The world after the tick wrote the prompt, the note, the state and the
    tracker, as far as the file operations of [env] let it. *)
Definition after_commit (env : Env) (w : World) (b : Batch)
    (prompt content : string) : World :=
  let w1 := set_promptFile (Some prompt) w in
  if appendFails env && writeNotesFails env then w1
  else
    let doc := if appendFails env then note content
               else document w (destination w) +:+ note content in
    let w2 := set_documents (<[destination w := doc]> (documents w)) w1 in
    if writeStateFails env then w2
    else
      let w3 := set_stateFile (Some (committed_state env w content)) w2 in
      if writeProcessedFails env then w3
      else set_processedFile (Some (committed_tracker env w (items b))) w3.


(** *** Store and tracker together *)

(** The tracker agrees with the store: the stored fragments have distinct
    ids, no id is consumed twice, and every consumed id is the id of a stored
    fragment. *)
Definition consistent (w : World) : Prop :=
  NoDup (map id (store w))
  ∧ NoDup (consumedIds w)
  ∧ consumedIds w ⊆ map id (store w).

(** What an operation needs in order to keep store and tracker consistent:
    ingestion a fresh id, marking a batch of unconsumed fragments with
    distinct ids, cleanup and limiting a tracker they can save. *)
Definition admissible (env : Env) (op : Op) (w : World) : Prop :=
  match op with
  | AddWebhook _ | PostWebhook _ => freshId env ∉ map id (store w)
  | MarkBatchProcessed batchItems =>
      NoDup (map id batchItems) ∧ batchItems ⊆ unconsumed w
  | Cleanup _ | LimitWebhooks _ => writeProcessedFails env = false
  | _ => True
  end.

(** Both the store and the tracker are the same in the two worlds. *)
Definition same_store_and_tracker (w w' : World) : Prop :=
  webhooksFile w' = webhooksFile w ∧ processedFile w' = processedFile w.

(** Every character is white space. *)
Fixpoint all_white (s : string) : bool :=
  match s with
  | EmptyString => true
  | String c rest => is_white c && all_white rest
  end.


(** The tracker that cleanup and limiting save: the ids of the fragments
    that remain, the other fields as they were. *)
Definition pruned_tracker (w : World) (remaining : list Webhook) (ids : list string)
  : Processed.t :=
  {| Processed.processedIds := Some (List.filter (includes (map id remaining)) ids);
     Processed.lastProcessedAt := Processed.lastProcessedAt (tracker w);
     Processed.totalProcessed := Processed.totalProcessed (tracker w) |}.

End Spec.

Import WebhookManager Processor Server Spec.

(** * Properties *)

(** ** Generic facts about completions and computations *)

Lemma mapM_Normal_Forall2 {A B} (f : A → Completion B) (l : list A) (vs : list B) :
  mapM f l = Normal vs → Forall2 (λ x v, f x = Normal v) l vs.
Proof.
  revert vs. induction l as [|x l IH]; intros vs; simpl.
  - intros [= <-]. constructor.
  - destruct (f x) as [v|e] eqn:Hx; simpl; [|discriminate].
    destruct (mapM f l) as [k|e] eqn:Hl; simpl; [|discriminate].
    intros [= <-]. constructor; auto.
Qed.


(** ** The Batcher *)

Section Batcher.

Lemma getUnprocessedBatch_eq (w : World) :
  getUnprocessedBatch w = (batchOf (unconsumed w), w).
Proof.
  unfold getUnprocessedBatch, mbind, IO_bind, loadWebhooks, loadProcessed.
  fold (consumedIds w). fold (unconsumed w).
  destruct (unconsumed w) as [|x u] eqn:Hu; [reflexivity|].
  cbn [length Nat.eqb].
  unfold batchOf, liftC, slice, mbind, completion_bind, mret, IO_ret.
  rewrite Nat.sub_0_r, drop_0.
  replace (batchSize * 2 - batchSize)%nat with batchSize by reflexivity.
  destruct (mapM _ (take batchSize (x :: u))) as [texts|e]; [|reflexivity].
  destruct (Array_join mergeSeparator texts) as [merged|e]; [|reflexivity].
  destruct (drop batchSize (x :: u)) as [|y rest] eqn:Hd; simpl.
  - reflexivity.
  - destruct (extractTextFromData (data y)); reflexivity.
Qed.

Lemma getUnprocessedBatch_result (w : World) :
  result getUnprocessedBatch w = batchOf (unconsumed w).
Proof. unfold result. rewrite getUnprocessedBatch_eq. reflexivity. Qed.

Lemma getUnprocessedBatch_pure (w : World) : run getUnprocessedBatch w = w.
Proof. unfold run. rewrite getUnprocessedBatch_eq. reflexivity. Qed.

Lemma mapM_Normal_map {A} (f : A → Completion string) (l : list A)
    (parts : list string) :
  mapM f l = Normal parts →
  parts = map (λ x, match f x with Normal s => s | Throw _ => "" end) l
  ∧ Forall (λ x, is_Normal (f x)) l.
Proof.
  intros H. apply mapM_Normal_Forall2 in H.
  induction H as [|x s l parts Hx _ [-> IH]]; [split; [reflexivity|constructor]|].
  simpl. rewrite Hx. split; [reflexivity|]. constructor; [|exact IH].
  rewrite Hx. exact I.
Qed.

(** The conversion that [join] makes of the extracted values is the text of
    the items. *)
Lemma mapM_item_text (l : list Webhook) (texts : list Value) :
  mapM (λ item, extractTextFromData (data item)) l = Normal texts →
  mapM join_elem texts = mapM item_text l.
Proof.
  intros H. apply mapM_Normal_Forall2 in H.
  induction H as [|item v l texts Hv _ IH]; [reflexivity|].
  assert (Hi : item_text item = join_elem v)
    by (unfold item_text; rewrite Hv; reflexivity).
  simpl. rewrite IH, Hi. reflexivity.
Qed.

Lemma mergedText_of_texts (l : list Webhook) (texts : list Value) (merged : string) :
  mapM (λ item, extractTextFromData (data item)) l = Normal texts →
  Array_join mergeSeparator texts = Normal merged →
  merged = join " " (map extractedText l) ∧ Forall printable l.
Proof.
  intros H. unfold Array_join. rewrite (mapM_item_text l texts H).
  destruct (mapM item_text l) as [parts|e] eqn:Hp; simpl; [|discriminate].
  intros [= <-]. apply mapM_Normal_map in Hp as [-> Hall]. auto.
Qed.


(** What a returned batch is, in terms of the unconsumed fragments. *)
Lemma batchOf_Some (u : list Webhook) (b : Batch) :
  batchOf u = Normal (Some b) →
  items b = take batchSize u
  ∧ mergedText b = join " " (map extractedText (take batchSize u))
  ∧ match u !! batchSize with
    | Some first => extractTextFromData (data first) = Normal (nextText b)
    | None => nextText b = Str ""
    end
  ∧ hasMore b = (batchSize <? length u)%nat.
Proof.
  unfold batchOf. destruct u as [|x u]; [discriminate|].
  destruct (mapM _ (take batchSize (x :: u))) as [texts|e] eqn:Ht;
    unfold mbind at 1, completion_bind at 1; [|discriminate].
  destruct (Array_join mergeSeparator texts) as [merged|e] eqn:Hm;
    unfold mbind, completion_bind; [|discriminate].
  destruct (mergedText_of_texts _ _ _ Ht Hm) as [-> _].
  replace ((x :: u) !! batchSize) with (drop batchSize (x :: u) !! 0%nat)
    by (rewrite lookup_drop; f_equal; lia).
  destruct (drop batchSize (x :: u)) as [|y rest] eqn:Hd.
  - intros [= <-]. simpl. auto.
  - simpl. destruct (extractTextFromData (data y)) as [v|e] eqn:Hy; [|discriminate].
    intros [= <-]. simpl. auto.
Qed.



End Batcher.

Section BatcherClaims.





(** C6, as the claim states it, fails: with eleven unconsumed fragments the
    batch has [hasMore = true] although nothing lies beyond the look-ahead
    fragment. *)
Lemma hasMore_beyond_lookahead_counterexample :
  let w := world_of (fragments 11) None in
  ∃ b, result getUnprocessedBatch w = Normal (Some b)
       ∧ ¬ hasMore_beyond_lookahead w b.
Proof.
  intros w. eexists. split; [vm_compute; reflexivity|].
  unfold hasMore_beyond_lookahead. intros [H _].
  specialize (H eq_refl). vm_compute in H. lia.
Qed.

(** C6, amended. [hasMore] is true exactly when unconsumed fragments exist
    beyond the batch window, that is when more than [batchSize] fragments are
    unconsumed; the look-ahead fragment counts. *)
Theorem hasMore_beyond_batch (w : World) (b : Batch) :
  result getUnprocessedBatch w = Normal (Some b) →
  hasMore b = true ↔ (batchSize < length (unconsumed w))%nat.
Proof.
  unfold result. rewrite getUnprocessedBatch_eq. simpl. intros Hb.
  apply batchOf_Some in Hb as (_ & _ & _ & Hh). rewrite Hh.
  apply Nat.ltb_lt.
Qed.

Lemma hasMore_beyond_batch_witness :
  let w := world_of (fragments 11) None in
  ∃ b, result getUnprocessedBatch w = Normal (Some b)
       ∧ (hasMore b = true ↔ (batchSize < length (unconsumed w))%nat).
Proof.
  intros w.
  destruct (result getUnprocessedBatch w) as [[b|]|e] eqn:Hb;
    try (vm_compute in Hb; discriminate).
  exists b. split; [reflexivity|]. apply (hasMore_beyond_batch w b Hb).
Defined.

End BatcherClaims.

(** ** Extraction and ingestion *)

Section Extraction.

(** Extraction returns a plain string as it is, and on a list of segments
    without [null] it joins the [text] fields of the segments. *)
Lemma extract_string (s : string) : extractTextFromData (Str s) = Normal (Str s).
Proof. reflexivity. Qed.

Lemma Array_map_objects (recv : string) (k : string) (elems : list Value) :
  Forall (λ e, e ≠ Null ∧ e ≠ Undefined) elems →
  ∃ texts, Array_map recv (λ segment, get segment k) (Arr elems) = Normal texts.
Proof.
  simpl. induction 1 as [|e elems [Hn Hu] _ [texts IH]]; simpl.
  - eexists; reflexivity.
  - rewrite IH. destruct e; try congruence; eexists; reflexivity.
Qed.

Lemma extract_segments (props : list (string * Value)) (elems : list Value) :
  lookup_prop "segments" props = Arr elems →
  Forall (λ e, e ≠ Null ∧ e ≠ Undefined) elems →
  ∃ texts,
    mapM (λ segment, get segment "text") elems = Normal texts
    ∧ extractTextFromData (Obj props)
      = (joined ← Array_join " " texts; Normal (Str joined)).
Proof.
  intros Hs Hall. unfold extractTextFromData, and_get. simpl. rewrite Hs. simpl.
  destruct (Array_map_objects "data.segments" "text" elems Hall) as [texts Ht].
  simpl in Ht. rewrite Ht. simpl. eexists; split; reflexivity.
Qed.

(** C7. Where the code departs from the claim: extraction throws on a payload
    whose segment list holds [null], throws when [segments] is not a list,
    and returns a number, not a string, when [text] is a number.  A stored
    fragment of the first kind makes the Batcher throw, so that the tick
    leaves the world as it is and the fragment stays at the head of the
    unconsumed ones. *)
Theorem extraction_not_total :
  extractTextFromData (Obj [("segments", Arr [Null])])
    = Throw (TypeError "Cannot read properties of null (reading 'text')")
  ∧ extractTextFromData (Obj [("segments", Num 5)])
    = Throw (TypeError "data.segments.map is not a function")
  ∧ extractTextFromData (Obj [("text", Num 5)]) = Normal (Num 5)
  ∧ (let env := env_answering (exit_ok "Note A") in
     let broken := {| id := "id-0"; data := Obj [("segments", Arr [Null])];
                      receivedAt := 0 |} in
     let w := world_of (broken :: fragments 2) None in
     result getUnprocessedBatch w
       = Throw (TypeError "Cannot read properties of null (reading 'text')")
     ∧ run (processWebhooks env) w = w).
Proof. repeat split. Qed.

(** C10. A falsy payload is dropped: [addWebhook] returns [undefined] and
    leaves the world, hence the store, as it was.  The falsy payloads are the
    empty string, [null], [undefined], [0] and [false]; the empty string is
    among them although extraction would return it unchanged. *)
Theorem falsy_payload_dropped (env : Env) (w : World) :
  (∀ data, truthy data = false → addWebhook env data w = (Normal None, w))
  ∧ (∀ data, truthy data = false
             ↔ data ∈ [Str ""; Null; Undefined; Num 0; Bool false])
  ∧ extractTextFromData (Str "") = Normal (Str "").
Proof.
  split; [|split; [|reflexivity]].
  - intros data Hf. unfold addWebhook. rewrite Hf. reflexivity.
  - intros data. rewrite !elem_of_cons, elem_of_nil. split.
    + destruct data as [| |[]|n|s| |]; simpl; try discriminate; intros Hf.
      * auto.
      * auto.
      * do 4 right. auto.
      * apply negb_false_iff, Z.eqb_eq in Hf. subst. do 3 right. auto.
      * apply negb_false_iff, String.eqb_eq in Hf. subst. auto.
    + intros [->|[->|[->|[->|[->|[]]]]]]; reflexivity.
Qed.

Lemma falsy_payload_dropped_witness :
  let env := env_answering (exit_ok "Note A") in
  let w := world_of (fragments 2) None in
  truthy (Str "") = false ∧ addWebhook env (Str "") w = (Normal None, w).
Proof.
  intros env w. split; [reflexivity|].
  apply (proj1 (falsy_payload_dropped env w)). reflexivity.
Defined.

End Extraction.

(** ** The prompt *)

Section Prompt.

(** The part of the escaping that holds: in the escaped value every double
    quote comes right after a backslash. *)
Lemma replace_quotes_quotes_follow_backslash (prev : bool) (s : string) :
  quotes_follow_backslash prev (replace_quotes s) = true.
Proof.
  revert prev. induction s as [|c s IH]; intros prev; [reflexivity|].
  simpl. destruct (Ascii.eqb c dquote) eqn:Hc; simpl.
  - rewrite IH. destruct prev; reflexivity.
  - rewrite Hc, IH. reflexivity.
Qed.

(** A value without a backslash keeps its literal intact. *)
Lemma no_backslash_literal_intact (value : string) :
  has_backslash value = false → literal_intact value.
Proof.
  intros Hb after. induction value as [|c s IH]; simpl.
  - reflexivity.
  - simpl in Hb. apply orb_false_iff in Hb as [Hc Hs].
    destruct (Ascii.eqb c dquote) eqn:Hq; simpl.
    + rewrite (IH Hs). reflexivity.
    + rewrite Hq, Hc, (IH Hs). reflexivity.
Qed.

(** C9. Where the code departs from the claim: the backslash itself is not
    escaped.  A value that ends in a backslash escapes the closing quote of
    its literal away, and in a value with a backslash before a quote the
    added backslash is the escaped one, so that the quote ends the literal
    early. *)
Theorem escaping_misses_backslash :
  replace_quotes bs = bs
  ∧ read_literal (replace_quotes bs +:+ dq +:+ " tail") = None
  ∧ replace_quotes (bs +:+ dq +:+ "x") = bs +:+ bs +:+ dq +:+ "x"
  ∧ read_literal (replace_quotes (bs +:+ dq +:+ "x") +:+ dq +:+ " tail")
    = Some (bs +:+ bs, "x" +:+ dq +:+ " tail")
  ∧ ¬ literal_intact bs
  ∧ ¬ literal_intact (bs +:+ dq +:+ "x").
Proof.
  repeat split.
  - intros H. specialize (H " tail"). discriminate.
  - intros H. specialize (H " tail"). discriminate.
Qed.

End Prompt.

(** ** The Scheduler tick *)

Section Tick.

Lemma callLLM_fails (env : Env) (prompt : string) (w : World) :
  gateway_fails env prompt →
  match callLLM env prompt w with
  | (Normal content, w') => content = "" ∧ w' = w
  | (Throw _, w') => w' = w
  end.
Proof.
  unfold gateway_fails, callLLM.
  destruct (apiKeyOf env) as [[|c key]|]; try reflexivity.
  intros [Hcode|Hout].
  - rewrite bool_decide_eq_false_2 by exact Hcode. reflexivity.
  - destruct (bool_decide _); simpl; [|reflexivity]. rewrite Hout. auto.
Qed.

Lemma buildPrompt_pure (last main : string) (next : Value) (w : World) :
  run (buildPrompt last main next) w = w.
Proof.
  unfold run, buildPrompt, mbind, IO_bind, loadUserStyle, liftC. simpl.
  destruct (escape _ _); reflexivity.
Qed.

Lemma buildPrompt_eq (last main : string) (next : Value) (w : World) :
  buildPrompt last main next w = (result (buildPrompt last main next) w, w).
Proof.
  rewrite <- (buildPrompt_pure last main next w) at 3.
  unfold result, run. destruct (buildPrompt _ _ _ w). reflexivity.
Qed.

Lemma or_empty_buildPrompt (last main : string) (v : Value) :
  buildPrompt last main (or_empty v) = buildPrompt last main v.
Proof. unfold buildPrompt. destruct v; reflexivity. Qed.

(** C1. Commit atomicity under failure: when the tick calls the gateway and
    the call fails (no credential, a non-zero exit, or an output that is empty
    or white space only), the tick leaves processed.json and
    processor_state.json as they were, and the Batcher then returns the same
    batch again. *)
Theorem gateway_failure_commits_nothing (env : Env) (w : World) (prompt : string) :
  tick_prompt env w = Some prompt →
  gateway_fails env prompt →
  let w' := run (processWebhooks env) w in
  processedFile w' = processedFile w
  ∧ stateFile w' = stateFile w
  ∧ result getUnprocessedBatch w' = result getUnprocessedBatch w.
Proof.
  intros Hp Hfail.
  assert (Hw : ∀ w1 w2 : World,
             webhooksFile w1 = webhooksFile w2 →
             processedFile w1 = processedFile w2 →
             result getUnprocessedBatch w1 = result getUnprocessedBatch w2).
  { intros w1 w2 H1 H2. unfold result. rewrite !getUnprocessedBatch_eq.
    unfold unconsumed, consumedIds. rewrite H1, H2. reflexivity. }
  cut (let w' := run (processWebhooks env) w in
       webhooksFile w' = webhooksFile w ∧ processedFile w' = processedFile w
       ∧ stateFile w' = stateFile w).
  { simpl. intros (H1 & H2 & H3). auto. }
  unfold tick_prompt in Hp. unfold run, processWebhooks, try_catch, mbind, IO_bind.
  rewrite getUnprocessedBatch_result in Hp. rewrite getUnprocessedBatch_eq.
  destruct (batchOf (unconsumed w)) as [[b|]|e]; try discriminate.
  unfold processBatch. destruct (String.eqb (trim (mergedText b)) ""); [discriminate|].
  unfold try_catch, mbind, IO_bind, loadState. fold (synthesisState w).
  rewrite or_empty_buildPrompt, buildPrompt_eq.
  destruct (result (buildPrompt _ _ _) w) as [p|e]; [|discriminate].
  unfold writeFile. destruct (writePromptFails env); [discriminate|].
  injection Hp as ->.
  pose proof (callLLM_fails env prompt (set_promptFile (Some prompt) w) Hfail) as Hc.
  destruct (callLLM env prompt _) as [[content|e] w1].
  - destruct Hc as [-> ->]. simpl. auto.
  - subst w1. simpl. auto.
Qed.

Lemma gateway_failure_commits_nothing_witness :
  let env := env_answering {| code := Some 1; stdout := ""; stderr := "overloaded" |} in
  let w := world_of (fragments 12) None in
  ∃ prompt,
    tick_prompt env w = Some prompt
    ∧ gateway_fails env prompt
    ∧ processedFile (run (processWebhooks env) w) = processedFile w
    ∧ stateFile (run (processWebhooks env) w) = stateFile w
    ∧ result getUnprocessedBatch (run (processWebhooks env) w)
      = result getUnprocessedBatch w.
Proof.
  intros env w.
  destruct (tick_prompt env w) as [prompt|] eqn:Hp; [|vm_compute in Hp; discriminate].
  exists prompt. split; [reflexivity|].
  assert (Hf : gateway_fails env prompt) by (left; discriminate).
  split; [exact Hf|].
  exact (gateway_failure_commits_nothing env w prompt Hp Hf).
Defined.

Lemma callLLM_cases (env : Env) (prompt : string) (w : World) :
  match callLLM env prompt w with
  | (Normal content, w') =>
      w' = w ∧ (content = "" ∨ synthesized env prompt content)
  | (Throw _, w') => w' = w
  end.
Proof.
  unfold callLLM, synthesized.
  destruct (apiKeyOf env) as [[|c key]|] eqn:Hk; try reflexivity.
  destruct (bool_decide _) eqn:Hc; simpl; [|reflexivity].
  apply bool_decide_eq_true in Hc. split; [reflexivity|].
  destruct (String.eqb (trim (stdout (llm env (String c key) prompt))) "") eqn:He.
  - apply String.eqb_eq in He. auto.
  - apply String.eqb_neq in He. right. split; [exact He|].
    exists (String c key). repeat split; auto; discriminate.
Qed.

(** C3, as the claim states it, fails: a fragment whose payload is a
    transcription without segments gives a batch with an empty merged text;
    the tick appends nothing, changes no synthesis state, and marks the
    fragment consumed. *)
Lemma consumed_without_append_counterexample :
  let env := env_answering (exit_ok "Note A") in
  let silent := {| id := "id-1"; data := Obj [("segments", Arr [])]; receivedAt := 1 |} in
  let w := world_of [silent] None in
  let w' := run (processWebhooks env) w in
  unconsumed w = [silent]
  ∧ consumedIds w' = ["id-1"]
  ∧ documents w' = documents w
  ∧ stateFile w' = stateFile w.
Proof. vm_compute. repeat split. Qed.

(** C3, amended. A tick changes processed.json, that is marks the fragments
    of its batch consumed, only if it wrote the text synthesized for that
    batch to the output document (appended it or, when appending fails, wrote
    it as the whole document), or if the merged text of the batch is empty or
    white space only; in the latter case nothing is synthesized or written and
    the batch is consumed all the same. *)
Theorem consumed_only_after_write_or_blank (env : Env) (w : World) :
  let w' := run (processWebhooks env) w in
  processedFile w' ≠ processedFile w →
  ∃ b, result getUnprocessedBatch w = Normal (Some b)
       ∧ (trim (mergedText b) = ""
          ∨ ∃ prompt content,
              tick_prompt env w = Some prompt
              ∧ synthesized env prompt content
              ∧ written_to env (documents w) (documents w') (destination w) content).
Proof.
  unfold tick_prompt, run, processWebhooks, try_catch, mbind, IO_bind.
  rewrite getUnprocessedBatch_result, getUnprocessedBatch_eq.
  destruct (batchOf (unconsumed w)) as [[b|]|e]; simpl; try congruence.
  intros H. exists b. split; [reflexivity|]. revert H.
  unfold processBatch.
  destruct (String.eqb (trim (mergedText b)) "") eqn:Hblank.
  { intros _. left. apply String.eqb_eq. exact Hblank. }
  intros H. right. revert H.
  unfold try_catch, mbind, IO_bind, loadState. fold (synthesisState w).
  rewrite or_empty_buildPrompt, buildPrompt_eq.
  destruct (result (buildPrompt _ _ _) w) as [prompt|e]; simpl; [|congruence].
  unfold writeFile at 1. destruct (writePromptFails env); simpl; [congruence|].
  pose proof (callLLM_cases env prompt (set_promptFile (Some prompt) w)) as Hc.
  destruct (callLLM env prompt _) as [[content|e] w1]; [|subst w1; simpl; congruence].
  destruct Hc as [-> Hc].
  destruct (String.eqb content "") eqn:Hcontent; simpl; [congruence|].
  destruct Hc as [->|Hsyn]; [discriminate|].
  unfold appendToOutput. rewrite Hcontent.
  unfold try_catch, appendFile, writeNotes, written_to, saveState, writeFile.
  fold (destination w).
  destruct (appendFails env); [destruct (writeNotesFails env)|]; simpl; try congruence.
  - destruct (writeStateFails env); simpl; [congruence|].
    unfold markBatchProcessed.
    destruct (length (items b) =? 0)%nat; simpl; [congruence|].
    unfold mbind, IO_bind, loadProcessed, saveProcessed, writeFile.
    destruct (writeProcessedFails env); simpl; [congruence|].
    intros _. exists prompt, content.
    split; [reflexivity|]. split; [exact Hsyn|]. split; [reflexivity|].
    apply lookup_insert_eq.
  - destruct (writeStateFails env); simpl; [congruence|].
    unfold markBatchProcessed.
    destruct (length (items b) =? 0)%nat; simpl; [congruence|].
    unfold mbind, IO_bind, loadProcessed, saveProcessed, writeFile.
    destruct (writeProcessedFails env); simpl; [congruence|].
    intros _. exists prompt, content.
    split; [reflexivity|]. split; [exact Hsyn|].
    rewrite lookup_insert_eq. reflexivity.
Qed.

Lemma consumed_only_after_write_or_blank_witness :
  let env := env_answering (exit_ok "Note A") in
  let w := world_of (fragments 2) None in
  let w' := run (processWebhooks env) w in
  processedFile w' ≠ processedFile w
  ∧ ∃ b, result getUnprocessedBatch w = Normal (Some b)
         ∧ (trim (mergedText b) = ""
            ∨ ∃ prompt content,
                tick_prompt env w = Some prompt
                ∧ synthesized env prompt content
                ∧ written_to env (documents w) (documents w') (destination w) content).
Proof.
  intros env w w'.
  assert (H : processedFile w' ≠ processedFile w) by (vm_compute; discriminate).
  split; [exact H|]. exact (consumed_only_after_write_or_blank env w H).
Defined.

End Tick.

(** ** The session end *)

Section SessionEnd.

(** C4. Where the code departs from the claim: the stop-recording endpoint
    answers and does nothing else.  With three unconsumed fragments it leaves
    them unconsumed, writes no note and leaves the timer of the Scheduler
    set.  [getAllUnprocessed], which no code calls, merges the [text] field of
    the stored records, which they do not have, so that its merged text is
    separators only. *)
Theorem stop_recording_does_not_flush :
  (∀ w, stop_recording w
        = (Normal (Success "Recording stopped" (currentNotesFilePath w)), w))
  ∧ (let w := world_of (fragments 3) None in
     let w' := run stop_recording w in
     unconsumed w' = fragments 3
     ∧ documents w' = ∅
     ∧ stateFile w' = None
     ∧ processingInterval w' = true
     ∧ result getAllUnprocessed w'
       = Normal {| all_items := fragments 3; all_mergedText := "  "; count := 3 |}).
Proof. split; [reflexivity|]. vm_compute. repeat split. Qed.

End SessionEnd.

(** ** The life of a fragment *)

Section Lifecycle.

Lemma keeps_store_ret {A} (a : A) : keeps_store (mret a).
Proof. intros w. reflexivity. Qed.

Lemma keeps_store_throw {A} (e : Error) : keeps_store (@throw A e).
Proof. intros w. reflexivity. Qed.

Lemma keeps_store_liftC {A} (c : Completion A) : keeps_store (liftC c).
Proof. intros w. reflexivity. Qed.

Lemma keeps_store_bind {A B} (m : IO A) (f : A → IO B) :
  keeps_store m → (∀ a, keeps_store (f a)) → keeps_store (m ≫= f).
Proof.
  intros Hm Hf w. unfold run, mbind, IO_bind. specialize (Hm w). unfold run in Hm.
  destruct (m w) as [[a|e] w1]; simpl in *; [|exact Hm].
  rewrite <- Hm. apply Hf.
Qed.

Lemma keeps_store_try_catch {A} (body : IO A) (handler : Error → IO A) :
  keeps_store body → (∀ e, keeps_store (handler e)) →
  keeps_store (try_catch body handler).
Proof.
  intros Hm Hf w. unfold run, try_catch. specialize (Hm w). unfold run in Hm.
  destruct (body w) as [[a|e] w1]; simpl in *; [exact Hm|].
  rewrite <- Hm. apply Hf.
Qed.

Lemma keeps_store_writeFile (fails : bool) (update : World → World) :
  (∀ w, webhooksFile (update w) = webhooksFile w) →
  keeps_store (writeFile fails update).
Proof. intros H w. unfold run, writeFile. destruct fails; simpl; auto. Qed.

Lemma keeps_store_read {A} (f : World → A) : keeps_store (λ w, (Normal (f w), w)).
Proof. intros w. reflexivity. Qed.

Create HintDb frame.

(** Splits a computation into its steps and discharges each of them, the
    functions already framed first. *)
Ltac frame :=
  repeat first
    [ solve [auto with frame nocore]
    | apply keeps_store_ret
    | apply keeps_store_throw
    | apply keeps_store_liftC
    | apply keeps_store_read
    | apply keeps_store_writeFile; intros ?; reflexivity
    | apply keeps_store_bind; [|intros ?]
    | apply keeps_store_try_catch; [|intros ?]
    | match goal with
      | |- keeps_store (if ?b then _ else _) => destruct b
      | |- keeps_store (match ?x with _ => _ end) => destruct x
      end ].

Lemma keeps_store_getUnprocessedBatch : keeps_store getUnprocessedBatch.
Proof. intros w. rewrite getUnprocessedBatch_pure. reflexivity. Qed.

Hint Resolve keeps_store_getUnprocessedBatch : frame.

Lemma keeps_store_markBatchProcessed (env : Env) (batchItems : list Webhook) :
  keeps_store (markBatchProcessed env batchItems).
Proof. unfold markBatchProcessed, loadProcessed, saveProcessed. frame. Qed.

Hint Resolve keeps_store_markBatchProcessed : frame.

Lemma keeps_store_processBatch (env : Env) (mergedText : string)
    (nextText : Value) (outputPath : option string) :
  keeps_store (processBatch env mergedText nextText outputPath).
Proof.
  unfold processBatch, loadState, buildPrompt, loadUserStyle, callLLM,
    appendToOutput, saveState.
  frame.
  intros w. unfold run, appendFile. destruct (appendFails env); reflexivity.
Qed.

Hint Resolve keeps_store_processBatch : frame.

Lemma keeps_store_processWebhooks (env : Env) : keeps_store (processWebhooks env).
Proof. unfold processWebhooks. frame. Qed.

Hint Resolve keeps_store_processWebhooks : frame.

(** Every operation other than ingestion, cleanup and limiting leaves the
    store as it is. *)
Lemma exec_keeps_store (env : Env) (op : Op) (w : World) :
  match op with
  | AddWebhook _ | PostWebhook _ | Cleanup _ | LimitWebhooks _ => True
  | _ => store (exec env op w) = store w
  end.
Proof.
  assert (H : ∀ A (m : IO A), keeps_store m → store (run m w) = store w).
  { intros A m Hm. unfold store. rewrite Hm. reflexivity. }
  destruct op; simpl; try exact I; apply H.
  - frame.
  - frame.
  - unfold getStats, loadWebhooks, loadProcessed. frame.
  - unfold resetProcessed, saveProcessed. frame.
  - unfold getAllUnprocessed, loadWebhooks, loadProcessed. frame.
  - frame.
  - unfold resetState, saveState. frame.
  - unfold getStatus, loadState. frame.
  - frame.
  - intros w0. reflexivity.
  - intros w0. reflexivity.
  - intros w0. reflexivity.
Qed.

Lemma addWebhook_store (env : Env) (data : Value) (w : World) :
  store (run (addWebhook env data) w) = store w
  ∨ store (run (addWebhook env data) w) = store w ++ [ingested env data].
Proof.
  unfold addWebhook, run. destruct (truthy data); simpl; [|auto].
  unfold mbind, IO_bind, loadWebhooks, saveWebhooks, writeFile. simpl.
  destruct (writeWebhooksFails env); simpl; auto.
Qed.

Lemma webhook_store (env : Env) (body : Value) (w : World) :
  store (run (webhook env body) w) = store w
  ∨ store (run (webhook env body) w) = store w ++ [ingested env body].
Proof.
  destruct (addWebhook_store env body w) as [H|H]; [left|right]; rewrite <- H;
    unfold webhook, run, try_catch, mbind, IO_bind;
    destruct (addWebhook env body w) as [[r|e] w1]; reflexivity.
Qed.

Lemma filterM_keeps (cutoff : Z) (processed : Processed.t) (ids : list string)
    (l : list Webhook) :
  Processed.processedIds processed = Some ids →
  filterM (keeps cutoff processed) l = Normal (List.filter (retained cutoff ids) l).
Proof.
  intros Hids. induction l as [|f l IH]; [reflexivity|].
  simpl. rewrite IH. unfold keeps at 1, processedIds_for. rewrite Hids. simpl.
  change (negb ((receivedAt f <? cutoff) && includes ids (id f)))
    with (retained cutoff ids f).
  destruct (retained cutoff ids f); reflexivity.
Qed.

Lemma cleanup_store (env : Env) (keepDays : Z) (w : World) :
  store (run (cleanup env keepDays) w) = store w
  ∨ store (run (cleanup env keepDays) w)
    = List.filter (retained (now env - keepDays * msPerDay) (consumedIds w)) (store w).
Proof.
  unfold cleanup, run, mbind, IO_bind, loadWebhooks, loadProcessed, liftC.
  unfold consumedIds, store.
  destruct (Processed.processedIds (default defaultProcessed (processedFile w)))
    as [ids|] eqn:Hids.
  - rewrite (filterM_keeps _ _ ids) by exact Hids.
    unfold processedIds_for. rewrite Hids. simpl.
    unfold saveWebhooks, saveProcessed, writeFile.
    destruct (writeWebhooksFails env); simpl; [auto|].
    destruct (writeProcessedFails env); simpl; auto.
  - destruct (filterM _ _) as [filtered|e]; [|auto].
    unfold processedIds_for. rewrite Hids. auto.
Qed.

Lemma limitWebhooks_store (env : Env) (maxCount : Z) (w : World) :
  store (run (limitWebhooks env maxCount) w) = store w
  ∨ store (run (limitWebhooks env maxCount) w) = slice_from (- maxCount) (store w).
Proof.
  unfold limitWebhooks, run, mbind, IO_bind, loadWebhooks, store.
  destruct (maxCount <? _); simpl; [|auto].
  unfold saveWebhooks, writeFile.
  destruct (writeWebhooksFails env); simpl; [auto|]. right.
  unfold loadProcessed, liftC. destruct (processedIds_for _ _); simpl; [|reflexivity].
  unfold saveProcessed, writeFile. destruct (writeProcessedFails env); reflexivity.
Qed.

Lemma retained_false (cutoff : Z) (ids : list string) (f : Webhook) :
  retained cutoff ids f = false → id f ∈ ids ∧ receivedAt f < cutoff.
Proof.
  unfold retained, includes. intros H.
  apply negb_false_iff, andb_true_iff in H as [Hold Hin].
  apply Z.ltb_lt in Hold. apply bool_decide_eq_true in Hin. auto.
Qed.

Lemma slice_from_subseteq {A} (start : Z) (l : list A) (x : A) :
  x ∈ slice_from start l → x ∈ l.
Proof.
  unfold slice_from. intros H. rewrite <- (take_drop (Z.to_nat
    (if start <? 0 then Z.max (Z.of_nat (length l) + start) 0
     else Z.min start (Z.of_nat (length l)))) l).
  apply elem_of_app. right. exact H.
Qed.

(** C8, as the claim states it, fails: [limitWebhooks] with its default of
    30 removes the oldest of 31 fragments, none of which is consumed. *)
Lemma removed_only_by_cleanup_counterexample :
  let env := env_answering (exit_ok "Note A") in
  let w := world_of (fragments 31) None in
  consumedIds w = [] ∧ ¬ removed_only_by_cleanup env (LimitWebhooks 30) w.
Proof.
  intros env w. split; [reflexivity|]. intros H.
  destruct (H (fragment 1)) as (keepDays & Hop & _).
  - apply list_elem_of_here.
  - intros Hin. apply (list_elem_of_fmap_2 id) in Hin.
    revert Hin. apply (bool_decide_unpack _). vm_compute. exact I.
  - discriminate.
Qed.

(** C8, amended. A stored fragment is never modified: the store after an
    operation holds fragments of the store before it and, after ingestion,
    the fragment ingested.  A fragment leaves the store only through retention
    cleanup, which removes only fragments that are both marked consumed and
    older than the retention window, or through [limitWebhooks], which keeps
    the most recent [maxCount] fragments and drops the older ones whether
    consumed or not; no other operation removes a fragment. *)
Theorem fragment_lifecycle (env : Env) (op : Op) (w : World) :
  let w' := exec env op w in
  (∀ f, f ∈ store w' →
        f ∈ store w
        ∨ ∃ data, (op = AddWebhook data ∨ op = PostWebhook data)
                  ∧ f = ingested env data)
  ∧ (∀ f, f ∈ store w → f ∉ store w' →
          (∃ keepDays, op = Cleanup keepDays
                       ∧ id f ∈ consumedIds w
                       ∧ receivedAt f < now env - keepDays * msPerDay)
          ∨ (∃ maxCount, op = LimitWebhooks maxCount
                         ∧ store w' = slice_from (- maxCount) (store w))).
Proof.
  simpl. pose proof (exec_keeps_store env op w) as Hk.
  destruct op; simpl in *;
    try (rewrite Hk; split; [auto | intros f Hin Hout; contradiction]).
  - (* addWebhook *)
    destruct (addWebhook_store env data0 w) as [->| ->]; split;
      try (intros f Hin Hout; contradiction); auto.
    + intros f [Hin| ->%list_elem_of_singleton]%elem_of_app; eauto.
    + intros f Hin Hout. exfalso. apply Hout, elem_of_app. auto.
  - (* cleanup *)
    destruct (cleanup_store env keepDays w) as [->| ->]; split;
      try (intros f Hin Hout; contradiction); auto.
    + intros f Hin. left. apply list_elem_of_In, filter_In in Hin as [Hin _].
      apply list_elem_of_In. exact Hin.
    + intros f Hin Hout. left. exists keepDays. split; [reflexivity|].
      apply retained_false.
      destruct (retained _ _ f) eqn:Hr; [|reflexivity].
      exfalso. apply Hout, list_elem_of_In, filter_In.
      split; [apply list_elem_of_In, Hin | exact Hr].
  - (* limitWebhooks *)
    destruct (limitWebhooks_store env maxCount w) as [->|Heq]; split;
      try (intros f Hin Hout; contradiction); auto.
    + intros f Hin. left. rewrite Heq in Hin. eapply slice_from_subseteq, Hin.
    + intros f Hin Hout. right. exists maxCount. auto.
  - (* POST /webhook *)
    destruct (webhook_store env body w) as [->| ->]; split;
      try (intros f Hin Hout; contradiction); auto.
    + intros f [Hin| ->%list_elem_of_singleton]%elem_of_app; eauto.
    + intros f Hin Hout. exfalso. apply Hout, elem_of_app. auto.
Qed.

Lemma fragment_lifecycle_witness :
  let env := env_at 1000000000 (exit_ok "Note A") in
  let w := world_of (fragments 2) (Some (tracker_of ["id-1"])) in
  let w' := exec env (Cleanup 7) w in
  fragment 1 ∈ store w
  ∧ (fragment 1 ∉ store w')
  ∧ id (fragment 1) ∈ consumedIds w
  ∧ receivedAt (fragment 1) < now env - 7 * msPerDay.
Proof.
  intros env w w'.
  assert (Hin : fragment 1 ∈ store w) by apply list_elem_of_here.
  assert (Hout : fragment 1 ∉ store w').
  { intros H. apply (list_elem_of_fmap_2 id) in H.
    revert H. apply (bool_decide_unpack _). vm_compute. exact I. }
  split; [exact Hin|]. split; [exact Hout|].
  destruct (proj2 (fragment_lifecycle env (Cleanup 7) w) (fragment 1) Hin Hout)
    as [(keepDays & Hop & Hc & Hold)|(maxCount & Hop & _)]; [|discriminate].
  injection Hop as <-. split; [exact Hc | exact Hold].
Defined.

End Lifecycle.

(** ** Scenarios *)

Section Scenarios.

(** Two fragments, "Hello" and "world": one batch, no look-ahead. *)
Example scenario_hello_world :
  let hello := {| id := "id-1"; data := Str "Hello"; receivedAt := 1 |} in
  let world := {| id := "id-2"; data := Str "world"; receivedAt := 2 |} in
  result getUnprocessedBatch (world_of [hello; world] None)
  = Normal (Some {| items := [hello; world]; mergedText := "Hello world";
                    nextText := Str ""; hasMore := false |}).
Proof. reflexivity. Qed.

(** A transcription with segments contributes its segment texts. *)
Example scenario_segments :
  extractTextFromData
    (Obj [("segments", Arr [Obj [("text", Str "so the limit")];
                            Obj [("text", Str "is zero")]])])
  = Normal (Str "so the limit is zero").
Proof. reflexivity. Qed.

(** Two ticks over twelve fragments, synthesized as "Note A" and then
    "Note B": the document holds both notes in that order, the state holds
    the last one, and all twelve fragments are consumed. *)
Example scenario_two_commits :
  let w0 := world_of (fragments 12) None in
  let w1 := run (processWebhooks (env_answering (exit_ok "Note A"))) w0 in
  let w2 := run (processWebhooks (env_answering (exit_ok "Note B"))) w1 in
  documents w2 !! outputFile = Some ("Note A" +:+ nl +:+ nl +:+ "Note B" +:+ nl +:+ nl)
  ∧ State.lastProcessed (synthesisState w2) = "Note B"
  ∧ State.processedCount (synthesisState w2) = 2
  ∧ unconsumed w1 = [fragment 11; fragment 12]
  ∧ unconsumed w2 = [].
Proof. vm_compute. repeat split. Qed.

End Scenarios.

(** * Further properties of the code *)

(** ** Extraction *)

Section ExtractionShapes.

Lemma mapM_get_Normal (k : string) (elems : list Value) :
  is_Normal (mapM (λ segment, get segment k) elems) ↔ no_null elems.
Proof.
  unfold no_null. induction elems as [|e elems IH]; simpl.
  - split; [constructor | exact (λ _, I)].
  - rewrite Forall_cons, <- IH.
    destruct e; simpl; try tauto;
      destruct (mapM _ elems); simpl; intuition congruence.
Qed.

Lemma mapM_get_texts (elems : list Value) (texts : list string) :
  Forall2 segment_with_text elems texts →
  mapM (λ segment, get segment "text") elems = Normal (map Str texts).
Proof.
  induction 1 as [|e t elems texts (props & -> & Ht) _ IH]; [reflexivity|].
  simpl. rewrite Ht, IH. reflexivity.
Qed.

Lemma mapM_get_text_of (elems : list Value) :
  no_null elems →
  mapM (λ segment, get segment "text") elems = Normal (map text_of elems).
Proof.
  induction 1 as [|e elems [Hn Hu] _ IH]; [reflexivity|].
  simpl. rewrite IH. destruct e; try congruence; reflexivity.
Qed.

Lemma Array_join_strings (sep : string) (texts : list string) :
  Array_join sep (map Str texts) = Normal (join sep texts).
Proof.
  unfold Array_join.
  assert (H : mapM join_elem (map Str texts) = Normal texts).
  { induction texts as [|t texts IH]; [reflexivity|]. simpl. rewrite IH. reflexivity. }
  rewrite H. reflexivity.
Qed.

(** ToString converts exactly the values that are [stringable]. *)
Lemma ToString_stringable : ∀ v, is_Normal (ToString v) ↔ stringable v = true.
Proof.
  fix IH 1. intros v. destruct v as [| |b|n|s|elems|props]; simpl;
    try (split; [reflexivity | intros _; exact I]).
  - destruct b; split; (reflexivity || intros _; exact I).
  - assert (Hl : is_Normal (mapM (fun e => match e with
                                           | Undefined | Null => Normal ""
                                           | _ => ToString e
                                           end) elems)
                 ↔ forallb (fun e => match e with
                                     | Undefined | Null => true
                                     | _ => stringable e
                                     end) elems = true).
    { induction elems as [|e elems IHl]; simpl.
      - split; [reflexivity | intros _; exact I].
      - rewrite andb_true_iff, <- IHl.
        assert (He : is_Normal (match e with
                                | Undefined | Null => Normal ""
                                | _ => ToString e
                                end)
                     ↔ match e with
                       | Undefined | Null => true
                       | _ => stringable e
                       end = true).
        { pose proof (IH e) as IHe.
          destruct e; try exact IHe; split; (reflexivity || intros _; exact I). }
        rewrite <- He.
        destruct (match e with Undefined | Null => Normal "" | _ => ToString e end);
          simpl; [|tauto].
        destruct (mapM _ elems); simpl; tauto. }
    rewrite <- Hl. destruct (mapM _ elems); simpl; tauto.
  - destruct (has_prop "toString" props); simpl; split;
      (reflexivity || discriminate || tauto || intros _; exact I).
Qed.

Lemma join_elem_joinable (v : Value) : is_Normal (join_elem v) ↔ joinable v = true.
Proof.
  destruct v; try apply ToString_stringable; split; (reflexivity || intros _; exact I).
Qed.

(** [join] throws exactly when an element is not [joinable]. *)
Lemma Array_join_Normal (sep : string) (elems : list Value) :
  is_Normal (Array_join sep elems) ↔ Forall (λ v, joinable v = true) elems.
Proof.
  unfold Array_join.
  assert (H : is_Normal (mapM join_elem elems) ↔ Forall (λ v, joinable v = true) elems).
  { induction elems as [|e elems IHl]; simpl.
    - split; [constructor | exact (λ _, I)].
    - rewrite Forall_cons, <- IHl, <- join_elem_joinable.
      destruct (join_elem e); simpl; [|tauto].
      destruct (mapM join_elem elems); simpl; tauto. }
  rewrite <- H. destruct (mapM join_elem elems); simpl; tauto.
Qed.

(** Extraction of an object whose [segments] is a list without [null]. *)
Lemma segments_branch (props : list (string * Value)) (elems : list Value) :
  lookup_prop "segments" props = Arr elems → no_null elems →
  extractTextFromData (Obj props)
  = (joined ← Array_join " " (map text_of elems); Normal (Str joined)).
Proof.
  intros Hs Hn. unfold extractTextFromData, and_get. simpl. rewrite Hs. simpl.
  rewrite (mapM_get_text_of elems Hn). reflexivity.
Qed.

(** X1. Extraction throws exactly when the payload has a truthy [segments]
    that is not a list of elements other than [null] whose [text] the join
    can convert; on every other payload it returns a value.  The join
    converts every text but an object with an own [toString] property, or a
    list that holds one. *)
Theorem extraction_throws_iff (data : Value) :
  is_Normal (extractTextFromData data)
  ↔ (truthy (segments_of data) = true →
     ∃ elems, segments_of data = Arr elems
              ∧ no_null elems
              ∧ Forall (λ e, joinable (text_of e) = true) elems).
Proof.
  destruct data as [| |b|n|s|l|props];
    try (split; [discriminate | intros _; exact I]).
  - split; [discriminate|]. intros _. simpl. destruct b; exact I.
  - split; [discriminate|]. intros _. unfold extractTextFromData, and_get. simpl.
    destruct (n =? 0) eqn:Hn; simpl; rewrite ?Hn; simpl; exact I.
  - unfold segments_of.
    destruct (lookup_prop "segments" props) as [| |b|n|s|elems|ps] eqn:Hs.
    + unfold extractTextFromData, and_get. simpl. rewrite Hs. simpl.
      split; [discriminate|]. intros _. destruct (truthy _); exact I.
    + unfold extractTextFromData, and_get. simpl. rewrite Hs. simpl.
      split; [discriminate|]. intros _. destruct (truthy _); exact I.
    + unfold extractTextFromData, and_get. simpl. rewrite Hs. simpl.
      destruct b; simpl.
      * split; [tauto|]. intros H. destruct (H eq_refl) as (? & ? & _). discriminate.
      * split; [discriminate|]. intros _. destruct (truthy _); exact I.
    + unfold extractTextFromData, and_get. simpl. rewrite Hs. simpl.
      destruct (negb (n =? 0)); simpl.
      * split; [tauto|]. intros H. destruct (H eq_refl) as (? & ? & _). discriminate.
      * split; [discriminate|]. intros _. destruct (truthy _); exact I.
    + unfold extractTextFromData, and_get. simpl. rewrite Hs. simpl.
      destruct (negb (String.eqb s "")); simpl.
      * split; [tauto|]. intros H. destruct (H eq_refl) as (? & ? & _). discriminate.
      * split; [discriminate|]. intros _. destruct (truthy _); exact I.
    + pose proof (mapM_get_Normal "text" elems) as Hm.
      destruct (mapM (λ segment, get segment "text") elems) as [texts|e] eqn:Hg.
      * assert (Hn : no_null elems) by (apply Hm; exact I).
        rewrite (segments_branch props elems Hs Hn).
        pose proof (Array_join_Normal " " (map text_of elems)) as Hj.
        rewrite Forall_fmap in Hj.
        split.
        -- intros Hok _. exists elems. split; [reflexivity|]. split; [exact Hn|].
           apply Hj. destruct (Array_join " " (map text_of elems)); [exact I|destruct Hok].
        -- intros H. destruct (H eq_refl) as (elems' & [= <-] & _ & Hall).
           apply Hj in Hall.
           destruct (Array_join " " (map text_of elems)); [exact I|destruct Hall].
      * unfold extractTextFromData, and_get. simpl. rewrite Hs. simpl. rewrite Hg. simpl.
        split; [tauto|]. intros H. destruct (H eq_refl) as (elems' & [= <-] & Hn & _).
        apply Hm. exact Hn.
    + unfold extractTextFromData, and_get. simpl. rewrite Hs. simpl.
      split; [tauto|]. intros H. destruct (H eq_refl) as (? & ? & _). discriminate.
Qed.

Lemma extraction_throws_iff_witness :
  let data := Obj [("segments", Arr [Obj [("text", Str "a")]; Num 3])] in
  truthy (segments_of data) = true
  ∧ is_Normal (extractTextFromData data)
  ∧ ∃ elems, segments_of data = Arr elems
             ∧ no_null elems
             ∧ Forall (λ e, joinable (text_of e) = true) elems.
Proof.
  intros data. split; [reflexivity|].
  assert (Hn : is_Normal (extractTextFromData data)) by exact I.
  split; [exact Hn|].
  exact (proj1 (extraction_throws_iff data) Hn eq_refl).
Defined.

(** X2. A transcription whose segments are objects with string texts is
    extracted as those texts joined with one space, in the order of the
    list, whatever other fields the payload and the segments have; an empty
    list of segments gives the empty string. *)
Theorem extraction_joins_segments (props : list (string * Value))
    (elems : list Value) (texts : list string) :
  lookup_prop "segments" props = Arr elems →
  Forall2 segment_with_text elems texts →
  extractTextFromData (Obj props) = Normal (Str (join " " texts)).
Proof.
  intros Hs Ht. unfold extractTextFromData, and_get. simpl. rewrite Hs. simpl.
  rewrite (mapM_get_texts elems texts Ht). simpl.
  rewrite Array_join_strings. reflexivity.
Qed.

Lemma extraction_joins_segments_witness :
  extractTextFromData
    (Obj [("id", Num 7);
          ("segments", Arr [Obj [("text", Str "so the limit"); ("start", Num 0)];
                            Obj [("speaker", Str "A"); ("text", Str "is zero")]]);
          ("text", Str "ignored")])
  = Normal (Str "so the limit is zero").
Proof.
  apply (extraction_joins_segments _
           [Obj [("text", Str "so the limit"); ("start", Num 0)];
            Obj [("speaker", Str "A"); ("text", Str "is zero")]]
           ["so the limit"; "is zero"]).
  - reflexivity.
  - repeat constructor; eexists; split; reflexivity.
Defined.

(** X3. Extraction returns a string on every payload other than [undefined]
    whose [segments], when truthy, is a list of elements other than [null]
    whose [text] the join can convert, and whose [text], when it is the field
    extraction returns, is a string. *)
Theorem extraction_returns_string (data : Value) :
  data ≠ Undefined →
  (truthy (segments_of data) = true →
   ∃ elems, segments_of data = Arr elems
            ∧ no_null elems
            ∧ Forall (λ e, joinable (text_of e) = true) elems) →
  (truthy (segments_of data) = false → truthy (text_of data) = true →
   is_string (text_of data) = true) →
  ∃ s, extractTextFromData data = Normal (Str s).
Proof.
  intros Hu Hseg Htext.
  destruct data as [| |b|n|s|l|props]; try congruence.
  - eexists; reflexivity.
  - destruct b; eexists; reflexivity.
  - unfold extractTextFromData, and_get. simpl.
    destruct (n =? 0) eqn:Hn; simpl; rewrite ?Hn; simpl; eexists; reflexivity.
  - eexists; reflexivity.
  - eexists; reflexivity.
  - simpl in *.
    destruct (truthy (lookup_prop "segments" props)) eqn:Hts.
    + destruct (Hseg eq_refl) as (elems & Hs & Hn & Hall).
      rewrite (segments_branch props elems Hs Hn).
      assert (Hj : is_Normal (Array_join " " (map text_of elems)))
        by (apply Array_join_Normal, Forall_fmap; exact Hall).
      destruct (Array_join " " (map text_of elems)) as [joined|e]; [|destruct Hj].
      eexists; reflexivity.
    + unfold extractTextFromData, and_get. simpl. rewrite Hts. simpl.
      destruct (truthy (lookup_prop "text" props)) eqn:Htt.
      * specialize (Htext eq_refl eq_refl).
        destruct (lookup_prop "text" props); try discriminate.
        eexists; reflexivity.
      * eexists; reflexivity.
Qed.

Lemma extraction_returns_string_witness :
  ∃ s, extractTextFromData (Obj [("text", Str "plain words")]) = Normal (Str s).
Proof.
  apply extraction_returns_string.
  - discriminate.
  - discriminate.
  - reflexivity.
Defined.

End ExtractionShapes.

(** ** The prompt and the gateway *)

Section PromptAndGateway.

Lemma replace_quotes_no_leading_quote (s : string) :
  starts_with_quote (replace_quotes s) = false.
Proof.
  destruct s as [|c s]; [reflexivity|]. simpl.
  destruct (Ascii.eqb c dquote) eqn:Hc; simpl; [reflexivity | exact Hc].
Qed.

Lemma replace_quotes_empty (s : string) : replace_quotes s = "" → s = "".
Proof.
  destruct s as [|c s]; [reflexivity|]. simpl.
  destruct (Ascii.eqb c dquote); discriminate.
Qed.

(** X4. The escaping loses nothing: removing the backslash in front of each
    double quote of the escaped value gives the value back, so that two
    values never have the same escaped form. *)
Theorem escaping_is_lossless (s : string) :
  unescape_quotes (replace_quotes s) = s.
Proof.
  induction s as [|c s IH]; [reflexivity|].
  simpl replace_quotes. destruct (Ascii.eqb c dquote) eqn:Hc.
  - apply Ascii.eqb_eq in Hc. subst c. simpl. rewrite IH. reflexivity.
  - pose proof (replace_quotes_no_leading_quote s) as Hq.
    pose proof (replace_quotes_empty s) as He.
    simpl. destruct (replace_quotes s) as [|c' r] eqn:Hr.
    + rewrite (He eq_refl). reflexivity.
    + simpl in Hq. rewrite Hq, andb_false_r. rewrite IH. reflexivity.
Qed.

(** X5. In the escaped form of a value every double quote comes right after
    a backslash, whatever the value. *)
Theorem escaped_quotes_follow_backslash (s : string) :
  quotes_follow_backslash false (replace_quotes s) = true.
Proof. apply replace_quotes_quotes_follow_backslash. Qed.

(** X6. A value that holds no backslash keeps its literal intact: a reader
    that honours backslash escapes finds the end of the literal at the quote
    that the template puts after the escaped value. *)
Theorem escaped_literal_reads_back (value after : string) :
  has_backslash value = false →
  read_literal (replace_quotes value +:+ dq +:+ after)
  = Some (replace_quotes value, after).
Proof. intros H. exact (no_backslash_literal_intact value H after). Qed.

Lemma escaped_literal_reads_back_witness :
  let value := "she said " +:+ dq +:+ "hi" +:+ dq in
  has_backslash value = false
  ∧ read_literal (replace_quotes value +:+ dq +:+ " tail")
    = Some ("she said " +:+ bs +:+ dq +:+ "hi" +:+ bs +:+ dq, " tail").
Proof.
  intros value. split; [reflexivity|].
  exact (escaped_literal_reads_back value " tail" eq_refl).
Defined.

Lemma processBatch_nonstring_next (env : Env) (mergedText : string)
    (nextText : Value) (outputPath : option string) (w : World) :
  trim mergedText ≠ "" →
  is_string (or_empty nextText) = false →
  ∃ msg, processBatch env mergedText nextText outputPath w = (Throw (TypeError msg), w).
Proof.
  intros Hm Hn. unfold processBatch.
  apply String.eqb_neq in Hm. rewrite Hm.
  unfold try_catch, mbind, IO_bind, loadState, buildPrompt, loadUserStyle, liftC.
  simpl. destruct (or_empty (or_empty nextText)) eqn:Ho;
    destruct nextText; simpl in *; try discriminate; eexists; reflexivity.
Qed.

(** X7. A look-ahead that is not a string blocks its batch: when the
    fragment after the batch window extracts to a number, a boolean, a list,
    an object or [null], building the prompt throws and the tick leaves the
    world as it is, the batch unconsumed. *)
Theorem nonstring_lookahead_blocks_batch (env : Env) (w : World) (b : Batch) :
  result getUnprocessedBatch w = Normal (Some b) →
  trim (mergedText b) ≠ "" →
  is_string (or_empty (nextText b)) = false →
  run (processWebhooks env) w = w.
Proof.
  intros Hb Hm Hn. unfold run, processWebhooks, try_catch, mbind, IO_bind.
  rewrite getUnprocessedBatch_eq. rewrite getUnprocessedBatch_result in Hb. rewrite Hb.
  destruct (processBatch_nonstring_next env (mergedText b) (nextText b)
              (currentNotesFilePath w) w Hm Hn) as [msg ->].
  reflexivity.
Qed.

Lemma nonstring_lookahead_blocks_batch_witness :
  let env := env_answering (exit_ok "Note A") in
  let odd := {| id := "id-11"; data := Obj [("text", Num 5)]; receivedAt := 11 |} in
  let w := world_of (fragments 10 ++ [odd]) None in
  (∃ b, result getUnprocessedBatch w = Normal (Some b)
        ∧ trim (mergedText b) ≠ ""
        ∧ nextText b = Num 5)
  ∧ run (processWebhooks env) w = w.
Proof.
  intros env odd w.
  destruct (result getUnprocessedBatch w) as [[b|]|e] eqn:Hb;
    try (vm_compute in Hb; discriminate).
  assert (Hv : result getUnprocessedBatch w = Normal (Some b)) by exact Hb.
  vm_compute in Hv. injection Hv as Hv.
  assert (Hm : trim (mergedText b) ≠ "")
    by (rewrite <- Hv; vm_compute; intros H; discriminate H).
  assert (Hn : nextText b = Num 5) by (rewrite <- Hv; reflexivity).
  split.
  - exists b. split; [reflexivity|]. split; [exact Hm | exact Hn].
  - apply (nonstring_lookahead_blocks_batch env w b Hb Hm).
    rewrite Hn. reflexivity.
Defined.

(** X8. The gateway call is refused for want of a credential exactly when
    each of ANTHROPIC_API_KEY, anthropic_api_key and CLAUDE_API_KEY is unset
    or empty; an empty variable does not hide a later one that is set. *)
Theorem callLLM_refused_iff_no_credential (env : Env) (prompt : string) (w : World) :
  result (callLLM env prompt) w = Throw no_credential
  ↔ nonempty (ANTHROPIC_API_KEY env) = false
    ∧ nonempty (anthropic_api_key env) = false
    ∧ nonempty (CLAUDE_API_KEY env) = false.
Proof.
  unfold result, callLLM, apiKeyOf, env_or, nonempty, no_credential.
  destruct (ANTHROPIC_API_KEY env) as [[|c1 k1]|];
    destruct (anthropic_api_key env) as [[|c2 k2]|];
    destruct (CLAUDE_API_KEY env) as [[|c3 k3]|]; simpl;
    try (split; [reflexivity || auto | reflexivity || auto]; fail);
    try (split; [|intros (? & ? & ?); discriminate];
         destruct (bool_decide _); simpl; discriminate).
Qed.

Lemma callLLM_refused_iff_no_credential_witness :
  let env :=
    {| ANTHROPIC_API_KEY := Some ""; anthropic_api_key := None;
       CLAUDE_API_KEY := None; llm := λ _ _, exit_ok "Note A"; now := 0;
       freshId := "0-a"; writeWebhooksFails := false; writeProcessedFails := false;
       writeStateFails := false; writePromptFails := false; appendFails := false;
       writeNotesFails := false |} in
  nonempty (ANTHROPIC_API_KEY env) = false
  ∧ result (callLLM env "prompt") (world_of [] None) = Throw no_credential.
Proof.
  intros env. split; [reflexivity|].
  apply (callLLM_refused_iff_no_credential env "prompt" (world_of [] None)).
  repeat split.
Defined.

End PromptAndGateway.

(** ** The output document *)

Section Output.

Lemma append_assoc (a b c : string) : (a +:+ b) +:+ c = a +:+ b +:+ c.
Proof.
  induction a as [|x a IH]; [reflexivity|].
  change (String x ((a +:+ b) +:+ c) = String x (a +:+ b +:+ c)).
  rewrite IH. reflexivity.
Qed.

Lemma appendToOutput_ok (env : Env) (content path : string) (w : World) :
  appendFails env = false → content ≠ "" →
  appendToOutput env content path w
  = (Normal tt,
     set_documents (<[path := document w path +:+ note content]> (documents w)) w).
Proof.
  intros Ha Hc. unfold appendToOutput, try_catch, appendFile.
  apply String.eqb_neq in Hc. rewrite Hc, Ha. reflexivity.
Qed.

(** X9. Appends accumulate: two texts appended to the same document one
    after the other leave it with its earlier content, then the first text
    and a blank line, then the second text and a blank line; a document that
    did not exist starts empty, and every other document is untouched. *)
Theorem appends_accumulate (env : Env) (first second path : string) (w : World) :
  appendFails env = false → first ≠ "" → second ≠ "" →
  let w' := run (appendToOutput env first path ≫= λ _, appendToOutput env second path) w in
  documents w' !! path
  = Some (document w path +:+ first +:+ nl +:+ nl +:+ second +:+ nl +:+ nl)
  ∧ ∀ other, other ≠ path → documents w' !! other = documents w !! other.
Proof.
  intros Ha H1 H2. unfold run, mbind, IO_bind.
  rewrite (appendToOutput_ok env first path w Ha H1).
  rewrite (appendToOutput_ok env second path _ Ha H2). simpl. split.
  - rewrite lookup_insert_eq. unfold document, note. simpl.
    rewrite lookup_insert_eq. simpl. rewrite !append_assoc. reflexivity.
  - intros other Ho. rewrite !lookup_insert_ne by congruence. reflexivity.
Qed.

Lemma appends_accumulate_witness :
  let env := env_answering (exit_ok "") in
  let w := world_of [] None in
  let w' := run (appendToOutput env "Note A" "notes.md"
                 ≫= λ _, appendToOutput env "Note B" "notes.md") w in
  documents w' !! "notes.md" = Some ("Note A" +:+ nl +:+ nl +:+ "Note B" +:+ nl +:+ nl).
Proof.
  intros env w.
  assert (H1 : "Note A" ≠ "") by discriminate.
  assert (H2 : "Note B" ≠ "") by discriminate.
  exact (proj1 (appends_accumulate env "Note A" "Note B" "notes.md" w eq_refl H1 H2)).
Defined.

(** X10. When appending fails and the fallback write succeeds, the document
    is replaced by the new text alone: what it held before is lost.  Empty
    content writes nothing at all. *)
Theorem failed_append_replaces_document (env : Env) (content path : string) (w : World) :
  appendFails env = true → writeNotesFails env = false →
  let w' := run (appendToOutput env content path) w in
  if String.eqb content "" then w' = w
  else documents w' !! path = Some (content +:+ nl +:+ nl).
Proof.
  intros Ha Hw. unfold run, appendToOutput, try_catch, appendFile, writeNotes.
  destruct (String.eqb content ""); [reflexivity|].
  rewrite Ha, Hw. simpl. apply lookup_insert_eq.
Qed.

Lemma failed_append_replaces_document_witness :
  let env :=
    {| ANTHROPIC_API_KEY := Some "sk-test"; anthropic_api_key := None;
       CLAUDE_API_KEY := None; llm := λ _ _, exit_ok "Note B"; now := 0;
       freshId := "0-a"; writeWebhooksFails := false; writeProcessedFails := false;
       writeStateFails := false; writePromptFails := false; appendFails := true;
       writeNotesFails := false |} in
  let w := set_documents {["notes.md" := "Note A" +:+ nl +:+ nl]} (world_of [] None) in
  documents (run (appendToOutput env "Note B" "notes.md") w) !! "notes.md"
  = Some ("Note B" +:+ nl +:+ nl).
Proof.
  intros env w.
  exact (failed_append_replaces_document env "Note B" "notes.md" w eq_refl eq_refl).
Defined.

End Output.

(** ** The commit of a tick *)

Section Commit.

Lemma tick_prompt_Some (env : Env) (w : World) (prompt : string) :
  tick_prompt env w = Some prompt →
  ∃ b, batchOf (unconsumed w) = Normal (Some b)
       ∧ String.eqb (trim (mergedText b)) "" = false
       ∧ result (buildPrompt (State.lastProcessed (synthesisState w))
                   (mergedText b) (nextText b)) w = Normal prompt
       ∧ writePromptFails env = false.
Proof.
  unfold tick_prompt. rewrite getUnprocessedBatch_result.
  destruct (batchOf (unconsumed w)) as [[b|]|e]; try discriminate.
  destruct (String.eqb (trim (mergedText b)) "") eqn:Hblank; [discriminate|].
  destruct (result (buildPrompt _ _ _) w) as [p|e] eqn:Hbp; [|discriminate].
  destruct (writePromptFails env) eqn:Hwp; [discriminate|].
  intros [= <-]. exists b. auto.
Qed.

Lemma batch_items_nonempty (u : list Webhook) (b : Batch) :
  batchOf u = Normal (Some b) → (length (items b) =? 0)%nat = false.
Proof.
  intros Hb. pose proof (batchOf_Some u b Hb) as (Hi & _).
  rewrite Hi. destruct u as [|x u]; [discriminate|]. reflexivity.
Qed.

Lemma callLLM_synthesized (env : Env) (prompt content : string) (w : World) :
  synthesized env prompt content → callLLM env prompt w = (Normal content, w).
Proof.
  intros (Hne & key & Hk & Hkne & Hc & Ht). unfold callLLM. rewrite Hk.
  destruct key as [|c key]; [congruence|].
  rewrite bool_decide_eq_true_2 by exact Hc. rewrite Ht. reflexivity.
Qed.

(** The world after a tick whose gateway call returned [content]. *)
Lemma tick_synthesized (env : Env) (w : World) (b : Batch) (prompt content : string) :
  result getUnprocessedBatch w = Normal (Some b) →
  tick_prompt env w = Some prompt →
  synthesized env prompt content →
  run (processWebhooks env) w = after_commit env w b prompt content.
Proof.
  intros Hb Hp Hs. rewrite getUnprocessedBatch_result in Hb.
  destruct (tick_prompt_Some env w prompt Hp) as (b' & Hb' & Hblank & Hbp & Hwp).
  assert (b' = b) by congruence. subst b'.
  pose proof (batch_items_nonempty _ _ Hb) as Hitems.
  unfold run, processWebhooks, try_catch, mbind, IO_bind.
  rewrite getUnprocessedBatch_eq, Hb.
  unfold processBatch. rewrite Hblank.
  unfold try_catch, mbind, IO_bind, loadState. fold (synthesisState w).
  rewrite or_empty_buildPrompt, buildPrompt_eq, Hbp.
  unfold writeFile at 1. rewrite Hwp.
  rewrite (callLLM_synthesized env prompt content _ Hs).
  destruct Hs as (Hne & _). apply String.eqb_neq in Hne. rewrite Hne.
  unfold appendToOutput. rewrite Hne.
  unfold try_catch, appendFile, writeNotes, saveState, writeFile, after_commit.
  fold (destination w).
  unfold markBatchProcessed. rewrite Hitems.
  unfold mbind, IO_bind, loadProcessed, saveProcessed, writeFile.
  destruct (appendFails env); [destruct (writeNotesFails env)|]; simpl;
    try reflexivity;
    destruct (writeStateFails env); simpl; try reflexivity;
    destruct (writeProcessedFails env); reflexivity.
Qed.

(** X11. The commit of a tick: when the gateway returns a text and no file
    operation fails, the tick appends the text and a blank line to the
    destination document, saves it as the last synthesized text with the
    batch counter one higher, adds the ids of the batch, in order, to the
    consumed ids and the size of the batch to the running total, and leaves
    the store alone. *)
Theorem tick_commits (env : Env) (w : World) (b : Batch) (prompt content : string) :
  result getUnprocessedBatch w = Normal (Some b) →
  tick_prompt env w = Some prompt →
  synthesized env prompt content →
  appendFails env = false → writeStateFails env = false →
  writeProcessedFails env = false →
  let w' := run (processWebhooks env) w in
  documents w' !! destination w = Some (document w (destination w) +:+ content +:+ nl +:+ nl)
  ∧ stateFile w' = Some (committed_state env w content)
  ∧ consumedIds w' = consumedIds w ++ map id (items b)
  ∧ Processed.totalProcessed (tracker w')
    = Some (default 0 (Processed.totalProcessed (tracker w))
            + Z.of_nat (length (items b)))
  ∧ promptFile w' = Some prompt
  ∧ webhooksFile w' = webhooksFile w.
Proof.
  intros Hb Hp Hs Ha Hst Hpr. simpl.
  rewrite (tick_synthesized env w b prompt content Hb Hp Hs).
  unfold after_commit. rewrite Ha, Hst, Hpr. simpl.
  rewrite lookup_insert_eq. unfold consumedIds, tracker. simpl.
  rewrite length_map. repeat split.
Qed.

Lemma tick_commits_witness :
  let env := env_answering (exit_ok "Note A") in
  let w := world_of (fragments 12) None in
  let w' := run (processWebhooks env) w in
  documents w' !! "final_notes.md" = Some ("Note A" +:+ nl +:+ nl)
  ∧ stateFile w' = Some (committed_state env w "Note A")
  ∧ consumedIds w' = map id (fragments 10).
Proof.
  intros env w.
  destruct (result getUnprocessedBatch w) as [[b|]|e] eqn:Hb;
    try (vm_compute in Hb; discriminate).
  assert (Hv : result getUnprocessedBatch w = Normal (Some b)) by exact Hb.
  vm_compute in Hv. injection Hv as Hv.
  destruct (tick_prompt env w) as [prompt|] eqn:Hp; [|vm_compute in Hp; discriminate].
  assert (Hs : synthesized env prompt "Note A").
  { split; [discriminate|]. exists "sk-test". repeat split. discriminate. }
  destruct (tick_commits env w b prompt "Note A" Hb Hp Hs eq_refl eq_refl eq_refl)
    as (Hd & Hst & Hc & _).
  split; [exact Hd|]. split; [exact Hst|].
  rewrite Hc, <- Hv. reflexivity.
Defined.

(** X12. Once the note is appended, a failure to save the state or the
    tracker does not undo it: the text stays in the document, the tracker
    is unchanged and the Batcher returns the same batch again, so that the
    next tick synthesizes and appends the same fragments a second time. *)
Theorem late_failure_keeps_note (env : Env) (w : World) (b : Batch)
    (prompt content : string) :
  result getUnprocessedBatch w = Normal (Some b) →
  tick_prompt env w = Some prompt →
  synthesized env prompt content →
  appendFails env = false →
  writeStateFails env = true ∨ writeProcessedFails env = true →
  let w' := run (processWebhooks env) w in
  documents w' !! destination w = Some (document w (destination w) +:+ content +:+ nl +:+ nl)
  ∧ processedFile w' = processedFile w
  ∧ result getUnprocessedBatch w' = Normal (Some b).
Proof.
  intros Hb Hp Hs Ha Hf. simpl.
  rewrite (tick_synthesized env w b prompt content Hb Hp Hs).
  assert (Hsame : ∀ w', webhooksFile w' = webhooksFile w →
                        processedFile w' = processedFile w →
                        result getUnprocessedBatch w' = Normal (Some b)).
  { intros w' H1 H2. rewrite <- Hb, !getUnprocessedBatch_result.
    unfold unconsumed, consumedIds. rewrite H1, H2. reflexivity. }
  unfold after_commit. rewrite Ha. simpl.
  destruct (writeStateFails env); simpl.
  - rewrite lookup_insert_eq. repeat split. apply Hsame; reflexivity.
  - destruct Hf as [Hf|Hf]; [discriminate|]. rewrite Hf. simpl.
    rewrite lookup_insert_eq. repeat split. apply Hsame; reflexivity.
Qed.

Lemma late_failure_keeps_note_witness :
  let env :=
    {| ANTHROPIC_API_KEY := Some "sk-test"; anthropic_api_key := None;
       CLAUDE_API_KEY := None; llm := λ _ _, exit_ok "Note A"; now := 1000;
       freshId := "0-a"; writeWebhooksFails := false; writeProcessedFails := true;
       writeStateFails := false; writePromptFails := false; appendFails := false;
       writeNotesFails := false |} in
  let w := world_of (fragments 2) None in
  let w' := run (processWebhooks env) w in
  let w'' := run (processWebhooks env) w' in
  documents w' !! "final_notes.md" = Some ("Note A" +:+ nl +:+ nl)
  ∧ processedFile w' = None
  ∧ documents w'' !! "final_notes.md"
    = Some ("Note A" +:+ nl +:+ nl +:+ "Note A" +:+ nl +:+ nl).
Proof.
  intros env w.
  destruct (result getUnprocessedBatch w) as [[b|]|e] eqn:Hb;
    try (vm_compute in Hb; discriminate).
  destruct (tick_prompt env w) as [prompt|] eqn:Hp; [|vm_compute in Hp; discriminate].
  assert (Hs : synthesized env prompt "Note A").
  { split; [discriminate|]. exists "sk-test". repeat split. discriminate. }
  destruct (late_failure_keeps_note env w b prompt "Note A" Hb Hp Hs eq_refl
              (or_intror eq_refl)) as (Hd & Hpf & _).
  split; [exact Hd|]. split; [exact Hpf|]. vm_compute. reflexivity.
Defined.

End Commit.

(** ** The paths of a tick *)

Section TickPaths.

Lemma markBatchProcessed_world (env : Env) (batchItems : list Webhook) (w : World) :
  run (markBatchProcessed env batchItems) w
  = if (length batchItems =? 0)%nat || writeProcessedFails env then w
    else set_processedFile (Some (committed_tracker env w batchItems)) w.
Proof.
  unfold run, markBatchProcessed.
  destruct (length batchItems =? 0)%nat; [reflexivity|].
  unfold mbind, IO_bind, loadProcessed, saveProcessed, writeFile. simpl.
  destruct (writeProcessedFails env); reflexivity.
Qed.

(** The four ways a tick can end. *)
Lemma tick_cases (env : Env) (w : World) :
  run (processWebhooks env) w = w
  ∨ (∃ b, result getUnprocessedBatch w = Normal (Some b)
          ∧ trim (mergedText b) = ""
          ∧ run (processWebhooks env) w = run (markBatchProcessed env (items b)) w)
  ∨ (∃ prompt, tick_prompt env w = Some prompt
               ∧ run (processWebhooks env) w = set_promptFile (Some prompt) w)
  ∨ (∃ b prompt content,
       result getUnprocessedBatch w = Normal (Some b)
       ∧ tick_prompt env w = Some prompt
       ∧ synthesized env prompt content
       ∧ run (processWebhooks env) w = after_commit env w b prompt content).
Proof.
  destruct (result getUnprocessedBatch w) as [[b|]|e] eqn:Hb.
  - destruct (String.eqb (trim (mergedText b)) "") eqn:Hblank.
    + right. left. exists b. split; [reflexivity|].
      split; [apply String.eqb_eq; exact Hblank|].
      rewrite getUnprocessedBatch_result in Hb.
      unfold run, processWebhooks, try_catch, mbind, IO_bind.
      rewrite getUnprocessedBatch_eq, Hb. unfold processBatch. rewrite Hblank. simpl.
      destruct (markBatchProcessed env (items b) w) as [[r|e] w1]; reflexivity.
    + destruct (tick_prompt env w) as [prompt|] eqn:Hp.
      * pose proof (callLLM_cases env prompt (set_promptFile (Some prompt) w)) as Hc.
        destruct (callLLM env prompt (set_promptFile (Some prompt) w))
          as [[content|e] w1] eqn:Hcall.
        -- destruct Hc as [-> [-> |Hs]].
           ++ right. right. left. exists prompt. split; [reflexivity|].
              destruct (tick_prompt_Some env w prompt Hp) as (b' & Hb' & _ & Hbp & Hwp).
              rewrite getUnprocessedBatch_result in Hb.
              assert (b' = b) by congruence. subst b'.
              unfold run, processWebhooks, try_catch, mbind, IO_bind.
              rewrite getUnprocessedBatch_eq, Hb. unfold processBatch. rewrite Hblank.
              unfold try_catch, mbind, IO_bind, loadState. fold (synthesisState w).
              rewrite or_empty_buildPrompt, buildPrompt_eq, Hbp.
              unfold writeFile at 1. rewrite Hwp, Hcall. reflexivity.
           ++ right. right. right. exists b, prompt, content.
              split; [reflexivity|]. split; [reflexivity|]. split; [exact Hs|].
              apply tick_synthesized; assumption.
        -- subst w1. right. right. left. exists prompt. split; [reflexivity|].
           destruct (tick_prompt_Some env w prompt Hp) as (b' & Hb' & _ & Hbp & Hwp).
           rewrite getUnprocessedBatch_result in Hb.
           assert (b' = b) by congruence. subst b'.
           unfold run, processWebhooks, try_catch, mbind, IO_bind.
           rewrite getUnprocessedBatch_eq, Hb. unfold processBatch. rewrite Hblank.
           unfold try_catch, mbind, IO_bind, loadState. fold (synthesisState w).
           rewrite or_empty_buildPrompt, buildPrompt_eq, Hbp.
           unfold writeFile at 1. rewrite Hwp, Hcall. reflexivity.
      * left. unfold tick_prompt in Hp. rewrite Hb, Hblank in Hp.
        rewrite getUnprocessedBatch_result in Hb.
        unfold run, processWebhooks, try_catch, mbind, IO_bind.
        rewrite getUnprocessedBatch_eq, Hb. unfold processBatch. rewrite Hblank.
        unfold try_catch, mbind, IO_bind, loadState. fold (synthesisState w).
        rewrite or_empty_buildPrompt, buildPrompt_eq.
        destruct (result (buildPrompt _ _ _) w) as [p|e]; [|reflexivity].
        unfold writeFile at 1. destruct (writePromptFails env); [reflexivity|discriminate].
  - left. rewrite getUnprocessedBatch_result in Hb.
    unfold run, processWebhooks, try_catch, mbind, IO_bind.
    rewrite getUnprocessedBatch_eq, Hb. reflexivity.
  - left. rewrite getUnprocessedBatch_result in Hb.
    unfold run, processWebhooks, try_catch, mbind, IO_bind.
    rewrite getUnprocessedBatch_eq, Hb. reflexivity.
Qed.

(** X13. The synthesis state changes only together with a written note: a
    tick changes processor_state.json only after it wrote the text the
    gateway returned to the destination document, and the state it saves
    holds exactly that text as the last synthesized one, with the batch
    counter one higher than before. *)
Theorem state_changes_only_with_note (env : Env) (w : World) :
  let w' := run (processWebhooks env) w in
  stateFile w' ≠ stateFile w →
  ∃ prompt content,
    tick_prompt env w = Some prompt
    ∧ synthesized env prompt content
    ∧ written_to env (documents w) (documents w') (destination w) content
    ∧ stateFile w' = Some (committed_state env w content).
Proof.
  simpl. intros Hne.
  destruct (tick_cases env w)
    as [Hw|[(b & _ & _ & Hw)|[(prompt & _ & Hw)|(b & prompt & content & Hb & Hp & Hs & Hw)]]];
    rewrite Hw in *.
  - congruence.
  - rewrite markBatchProcessed_world in Hne.
    destruct (_ || _); simpl in Hne; congruence.
  - simpl in Hne. congruence.
  - exists prompt, content. split; [exact Hp|]. split; [exact Hs|].
    revert Hne. unfold after_commit, written_to.
    destruct (appendFails env); [destruct (writeNotesFails env)|]; simpl;
      try congruence;
      destruct (writeStateFails env); simpl; try congruence;
      destruct (writeProcessedFails env); simpl; intros _;
      rewrite lookup_insert_eq; auto.
Qed.

Lemma state_changes_only_with_note_witness :
  let env := env_answering (exit_ok "Note A") in
  let w := world_of (fragments 2) None in
  let w' := run (processWebhooks env) w in
  stateFile w' ≠ stateFile w
  ∧ ∃ prompt content,
      tick_prompt env w = Some prompt
      ∧ synthesized env prompt content
      ∧ written_to env (documents w) (documents w') (destination w) content
      ∧ stateFile w' = Some (committed_state env w content).
Proof.
  intros env w w'.
  assert (H : stateFile w' ≠ stateFile w) by (vm_compute; discriminate).
  split; [exact H|]. exact (state_changes_only_with_note env w H).
Defined.

(** X14. A blank batch is consumed in silence: when the merged text of the
    batch is empty or white space only and the tracker can be saved, the tick
    marks the items of the batch consumed and does nothing else; no prompt is
    written, no note, no state. *)
Theorem blank_batch_consumed_silently (env : Env) (w : World) (b : Batch) :
  result getUnprocessedBatch w = Normal (Some b) →
  trim (mergedText b) = "" →
  writeProcessedFails env = false →
  run (processWebhooks env) w
  = set_processedFile (Some (committed_tracker env w (items b))) w.
Proof.
  intros Hb Hblank Hpr. rewrite getUnprocessedBatch_result in Hb.
  pose proof (batch_items_nonempty _ _ Hb) as Hitems.
  pose proof (markBatchProcessed_world env (items b) w) as Hm.
  rewrite Hitems, Hpr in Hm. simpl in Hm. rewrite <- Hm.
  unfold run, processWebhooks, try_catch, mbind, IO_bind.
  rewrite getUnprocessedBatch_eq, Hb. unfold processBatch.
  apply String.eqb_eq in Hblank. rewrite Hblank. simpl.
  destruct (markBatchProcessed env (items b) w) as [[r|e] w1]; reflexivity.
Qed.

Lemma blank_batch_consumed_silently_witness :
  let env := env_answering (exit_ok "Note A") in
  let pause := {| id := "id-1"; data := Str "   "; receivedAt := 1 |} in
  let w := world_of [pause] None in
  let w' := run (processWebhooks env) w in
  consumedIds w' = ["id-1"] ∧ promptFile w' = None ∧ documents w' = ∅.
Proof.
  intros env pause w.
  destruct (result getUnprocessedBatch w) as [[b|]|e] eqn:Hb;
    try (vm_compute in Hb; discriminate).
  assert (Hv : result getUnprocessedBatch w = Normal (Some b)) by exact Hb.
  vm_compute in Hv. injection Hv as Hv.
  assert (Hblank : trim (mergedText b) = "") by (rewrite <- Hv; reflexivity).
  simpl. rewrite (blank_batch_consumed_silently env w b Hb Hblank eq_refl).
  rewrite <- Hv. repeat split.
Defined.

(** X15. What a tick leaves alone: it never changes the store, the style
    file, the path of the session or the timer, and among the documents it
    writes at most the one at the destination. *)
Theorem tick_frame (env : Env) (w : World) :
  let w' := run (processWebhooks env) w in
  webhooksFile w' = webhooksFile w
  ∧ styleFile w' = styleFile w
  ∧ currentNotesFilePath w' = currentNotesFilePath w
  ∧ processingInterval w' = processingInterval w
  ∧ same_documents_except (destination w) w w'.
Proof.
  simpl. unfold same_documents_except.
  destruct (tick_cases env w)
    as [Hw|[(b & _ & _ & Hw)|[(prompt & _ & Hw)|(b & prompt & content & _ & _ & _ & Hw)]]];
    rewrite Hw.
  - repeat split.
  - rewrite markBatchProcessed_world. destruct (_ || _); repeat split.
  - repeat split.
  - unfold after_commit.
    destruct (appendFails env); [destruct (writeNotesFails env)|]; simpl;
      try (repeat split; fail);
      destruct (writeStateFails env); simpl;
      try destruct (writeProcessedFails env); simpl;
      repeat split; intros p Hp; apply lookup_insert_ne; congruence.
Qed.

End TickPaths.

(** ** Store and tracker *)

Section StoreAndTracker.

Lemma includes_app (a b : list string) (x : string) :
  includes (a ++ b) x = includes a x || includes b x.
Proof.
  unfold includes. apply eq_true_iff_eq.
  rewrite orb_true_iff, !bool_decide_eq_true, elem_of_app. reflexivity.
Qed.

Lemma unprocessedOf_app (a b : list string) (webhooks : list Webhook) :
  unprocessedOf (a ++ b) webhooks = unprocessedOf b (unprocessedOf a webhooks).
Proof.
  unfold unprocessedOf. induction webhooks as [|f l IH]; [reflexivity|].
  cbn [List.filter]. rewrite includes_app.
  destruct (includes a (id f)); simpl; [exact IH|].
  destruct (includes b (id f)); simpl; rewrite IH; reflexivity.
Qed.

Lemma unprocessedOf_nil (webhooks : list Webhook) : unprocessedOf [] webhooks = webhooks.
Proof.
  unfold unprocessedOf. induction webhooks as [|f l IH]; [reflexivity|].
  cbn [List.filter]. rewrite IH.
  assert (includes [] (id f) = false) as ->
    by apply bool_decide_eq_false_2, not_elem_of_nil.
  reflexivity.
Qed.

Lemma unprocessedOf_elem (ids : list string) (webhooks : list Webhook) (f : Webhook) :
  f ∈ unprocessedOf ids webhooks ↔ f ∈ webhooks ∧ id f ∉ ids.
Proof.
  unfold unprocessedOf, includes.
  rewrite list_elem_of_In, filter_In, <- list_elem_of_In.
  rewrite negb_true_iff, bool_decide_eq_false. reflexivity.
Qed.

Lemma unconsumed_eq (w w' : World) :
  webhooksFile w' = webhooksFile w → consumedIds w' = consumedIds w →
  unconsumed w' = unconsumed w.
Proof. intros H1 H2. unfold unconsumed. rewrite H1, H2. reflexivity. Qed.

(** X16. Ingestion appends: a truthy payload is stored as one new fragment at
    the end of the store, with the id and the time of its ingestion; unless
    its id is already among the consumed ones, it is the last of the
    unconsumed fragments, so that fragments are batched in the order they
    were received.  Tracker, state and documents are untouched. *)
Theorem ingestion_appends (env : Env) (data : Value) (w : World) :
  truthy data = true → writeWebhooksFails env = false →
  let w' := run (addWebhook env data) w in
  result (addWebhook env data) w = Normal (Some (ingested env data))
  ∧ store w' = store w ++ [ingested env data]
  ∧ (freshId env ∉ consumedIds w → unconsumed w' = unconsumed w ++ [ingested env data])
  ∧ processedFile w' = processedFile w
  ∧ stateFile w' = stateFile w
  ∧ documents w' = documents w.
Proof.
  intros Ht Hw. unfold run, result, addWebhook. rewrite Ht. simpl.
  unfold mbind, IO_bind, loadWebhooks, saveWebhooks, writeFile. rewrite Hw. simpl.
  repeat split. intros Hfresh.
  unfold unconsumed, unprocessedOf, consumedIds. simpl.
  rewrite List.filter_app. simpl.
  unfold includes at 2. rewrite bool_decide_eq_false_2 by exact Hfresh. reflexivity.
Qed.

Lemma ingestion_appends_witness :
  let env := env_answering (exit_ok "Note A") in
  let w := world_of (fragments 2) (Some (tracker_of ["id-1"])) in
  let w' := run (addWebhook env (Str "and then")) w in
  unconsumed w' = [fragment 2; ingested env (Str "and then")].
Proof.
  intros env w.
  assert (Hfresh : freshId env ∉ consumedIds w).
  { apply (bool_decide_unpack _). vm_compute. exact I. }
  destruct (ingestion_appends env (Str "and then") w eq_refl eq_refl)
    as (_ & _ & Hu & _).
  simpl. rewrite (Hu Hfresh). reflexivity.
Defined.

(** X17. No double consumption: once a batch is marked processed and the
    tracker saved, the unconsumed fragments are the earlier ones without
    those that carry an id of the batch, in the same order; no item of the
    batch is selected again. *)
Theorem marked_batch_not_selected_again (env : Env) (batchItems : list Webhook)
    (w : World) :
  writeProcessedFails env = false →
  let w' := run (markBatchProcessed env batchItems) w in
  unconsumed w' = unprocessedOf (map id batchItems) (unconsumed w)
  ∧ ∀ f, f ∈ batchItems → f ∉ unconsumed w'.
Proof.
  intros Hpr. simpl.
  assert (Hu : unconsumed (run (markBatchProcessed env batchItems) w)
               = unprocessedOf (map id batchItems) (unconsumed w)).
  { rewrite markBatchProcessed_world, Hpr, orb_false_r.
    destruct batchItems as [|f l]; simpl.
    - rewrite unprocessedOf_nil. reflexivity.
    - unfold unconsumed at 1. unfold consumedIds at 1. simpl.
      rewrite unprocessedOf_app. reflexivity. }
  split; [exact Hu|]. intros f Hf. rewrite Hu, unprocessedOf_elem.
  intros [_ Hn]. apply Hn. apply list_elem_of_fmap_2. exact Hf.
Qed.

Lemma marked_batch_not_selected_again_witness :
  let env := env_answering (exit_ok "Note A") in
  let w := world_of (fragments 3) None in
  let w' := run (markBatchProcessed env [fragment 1; fragment 2]) w in
  unconsumed w' = [fragment 3].
Proof.
  intros env w.
  destruct (marked_batch_not_selected_again env [fragment 1; fragment 2] w eq_refl)
    as [Hu _].
  simpl. rewrite Hu. reflexivity.
Defined.

Lemma unprocessedOf_take (n : nat) (u : list Webhook) :
  NoDup (map id u) → unprocessedOf (map id (take n u)) u = drop n u.
Proof.
  revert n. induction u as [|x u IH]; intros n Hnd.
  - destruct n; reflexivity.
  - destruct n as [|n]; [apply unprocessedOf_nil|].
    simpl in Hnd. apply NoDup_cons in Hnd as [Hx Hnd].
    simpl. unfold unprocessedOf. simpl.
    unfold includes at 1. rewrite bool_decide_eq_true_2 by apply list_elem_of_here.
    simpl. rewrite <- (IH n Hnd). unfold unprocessedOf.
    apply List.filter_ext_in. intros y Hy. f_equal. unfold includes.
    apply bool_decide_ext. rewrite elem_of_cons. split; [|auto].
    intros [Heq|Hin]; [|exact Hin]. exfalso. apply Hx. rewrite <- Heq.
    apply list_elem_of_fmap_2, list_elem_of_In. exact Hy.
Qed.

(** X18. Progress of the Scheduler: when the unconsumed fragments have
    distinct ids, a tick that marks its batch leaves as unconsumed exactly the
    fragments after the batch window, so that the look-ahead fragment of one
    batch is the first item of the next. *)
Theorem tick_consumes_its_batch (env : Env) (w : World) :
  let w' := run (processWebhooks env) w in
  NoDup (map id (unconsumed w)) →
  processedFile w' ≠ processedFile w →
  unconsumed w' = drop batchSize (unconsumed w).
Proof.
  simpl. intros Hnd Hne.
  assert (Hmark : ∀ b, result getUnprocessedBatch w = Normal (Some b) →
            unconsumed (set_processedFile (Some (committed_tracker env w (items b))) w)
            = drop batchSize (unconsumed w)).
  { intros b Hb. rewrite getUnprocessedBatch_result in Hb.
    apply batchOf_Some in Hb as (Hi & _).
    unfold unconsumed at 1. unfold consumedIds at 1. simpl.
    rewrite unprocessedOf_app. fold (consumedIds w). fold (unconsumed w).
    rewrite Hi. apply unprocessedOf_take. exact Hnd. }
  destruct (tick_cases env w)
    as [Hw|[(b & Hb & _ & Hw)|[(prompt & _ & Hw)|(b & prompt & content & Hb & _ & _ & Hw)]]];
    rewrite Hw in *.
  - congruence.
  - rewrite markBatchProcessed_world in *.
    destruct (_ || _); [congruence|]. apply Hmark. exact Hb.
  - simpl in Hne. congruence.
  - rewrite <- (Hmark b Hb). revert Hne. unfold after_commit.
    destruct (appendFails env); [destruct (writeNotesFails env)|]; simpl;
      try congruence;
      destruct (writeStateFails env); simpl; try congruence;
      destruct (writeProcessedFails env); simpl; try congruence;
      intros _; apply unconsumed_eq; reflexivity.
Qed.

Lemma tick_consumes_its_batch_witness :
  let env := env_answering (exit_ok "Note A") in
  let w := world_of (fragments 12) None in
  let w' := run (processWebhooks env) w in
  unconsumed w' = [fragment 11; fragment 12].
Proof.
  intros env w.
  assert (Hnd : NoDup (map id (unconsumed w))).
  { apply (bool_decide_unpack _). vm_compute. exact I. }
  assert (Hne : processedFile (run (processWebhooks env) w) ≠ processedFile w)
    by (vm_compute; discriminate).
  simpl. rewrite (tick_consumes_its_batch env w Hnd Hne). reflexivity.
Defined.

End StoreAndTracker.

(** ** Cleanup, limiting and reset *)

Section Maintenance.

Lemma cleanup_world (env : Env) (keepDays : Z) (w : World) :
  run (cleanup env keepDays) w
  = match Processed.processedIds (tracker w) with
    | None => w
    | Some ids =>
        let filtered :=
          List.filter (retained (now env - keepDays * msPerDay) ids) (store w) in
        if writeWebhooksFails env then w
        else
          let w1 := set_webhooksFile (Some filtered) w in
          if writeProcessedFails env then w1
          else set_processedFile (Some (pruned_tracker w filtered ids)) w1
    end.
Proof.
  unfold cleanup, run, mbind, IO_bind, loadWebhooks, loadProcessed, liftC.
  unfold tracker, store.
  destruct (Processed.processedIds (default defaultProcessed (processedFile w)))
    as [ids|] eqn:Hids.
  - rewrite (filterM_keeps _ _ ids) by exact Hids.
    unfold processedIds_for. rewrite Hids. simpl.
    unfold saveWebhooks, saveProcessed, writeFile.
    destruct (writeWebhooksFails env); simpl; [reflexivity|].
    destruct (writeProcessedFails env); reflexivity.
  - destruct (filterM _ _) as [filtered|e]; [|reflexivity].
    unfold processedIds_for. rewrite Hids. reflexivity.
Qed.

Lemma limitWebhooks_world (env : Env) (maxCount : Z) (w : World) :
  run (limitWebhooks env maxCount) w
  = if maxCount <? Z.of_nat (length (store w)) then
      let limited := slice_from (- maxCount) (store w) in
      if writeWebhooksFails env then w
      else
        let w1 := set_webhooksFile (Some limited) w in
        match Processed.processedIds (tracker w) with
        | None => w1
        | Some ids =>
            if writeProcessedFails env then w1
            else set_processedFile (Some (pruned_tracker w limited ids)) w1
        end
    else w.
Proof.
  unfold limitWebhooks, run, mbind, IO_bind, loadWebhooks, store, tracker.
  destruct (maxCount <? _); simpl; [|reflexivity].
  unfold saveWebhooks, writeFile.
  destruct (writeWebhooksFails env); simpl; [reflexivity|].
  unfold loadProcessed, liftC, processedIds_for. simpl.
  destruct (Processed.processedIds (default defaultProcessed (processedFile w)));
    simpl; [|reflexivity].
  unfold saveProcessed, writeFile. destruct (writeProcessedFails env); reflexivity.
Qed.

Lemma consumedIds_tracker (w : World) (ids : list string) :
  Processed.processedIds (tracker w) = Some ids → consumedIds w = ids.
Proof. unfold consumedIds, tracker. intros ->. reflexivity. Qed.

Lemma consumedIds_tracker_None (w : World) :
  Processed.processedIds (tracker w) = None → consumedIds w = [].
Proof. unfold consumedIds, tracker. intros ->. reflexivity. Qed.

(** Pruning the tracker to the ids of the remaining fragments does not
    change which of them are unconsumed. *)
Lemma unprocessedOf_pruned (ids : list string) (remaining : list Webhook) :
  unprocessedOf (List.filter (includes (map id remaining)) ids) remaining
  = unprocessedOf ids remaining.
Proof.
  unfold unprocessedOf. apply List.filter_ext_in. intros f Hf. f_equal.
  unfold includes. apply bool_decide_ext.
  rewrite list_elem_of_In, filter_In, <- list_elem_of_In, bool_decide_eq_true.
  split; [tauto|]. intros Hin. split; [exact Hin|].
  apply list_elem_of_fmap_2, list_elem_of_In. exact Hf.
Qed.

Lemma filter_filter_implied {A} (p q : A → bool) (l : list A) :
  (∀ x, p x = true → q x = true) →
  List.filter p (List.filter q l) = List.filter p l.
Proof.
  intros H. induction l as [|x l IH]; [reflexivity|]. simpl.
  destruct (q x) eqn:Hq; simpl.
  - rewrite IH. reflexivity.
  - destruct (p x) eqn:Hp; [|exact IH]. rewrite (H x Hp) in Hq. discriminate.
Qed.

(** X19. Cleanup never touches an unconsumed fragment: whatever the
    retention window and whichever of its writes fail, the unconsumed
    fragments after cleanup are those before it, in the same order. *)
Theorem cleanup_keeps_unconsumed (env : Env) (keepDays : Z) (w : World) :
  unconsumed (run (cleanup env keepDays) w) = unconsumed w.
Proof.
  rewrite cleanup_world.
  destruct (Processed.processedIds (tracker w)) as [ids|] eqn:Hids; [|reflexivity].
  pose proof (consumedIds_tracker w ids Hids) as Hc.
  assert (H1 : unprocessedOf ids
                 (List.filter (retained (now env - keepDays * msPerDay) ids) (store w))
               = unconsumed w).
  { unfold unconsumed. rewrite Hc. unfold unprocessedOf. fold (store w).
    apply filter_filter_implied. intros f Hf. unfold retained.
    apply negb_true_iff in Hf. rewrite Hf, andb_false_r. reflexivity. }
  simpl. destruct (writeWebhooksFails env); [reflexivity|].
  destruct (writeProcessedFails env).
  - unfold unconsumed at 1. unfold consumedIds. simpl.
    fold (tracker w). rewrite Hids. exact H1.
  - unfold unconsumed at 1. unfold consumedIds. simpl.
    rewrite unprocessedOf_pruned. exact H1.
Qed.

(** X20. After a cleanup that saved both files, the tracker holds only ids
    of fragments that are still stored, each of them an id it held before. *)
Theorem cleanup_prunes_tracker (env : Env) (keepDays : Z) (w : World) :
  writeWebhooksFails env = false → writeProcessedFails env = false →
  let w' := run (cleanup env keepDays) w in
  consumedIds w' ⊆ map id (store w') ∧ consumedIds w' ⊆ consumedIds w.
Proof.
  intros Hw Hp. simpl. rewrite cleanup_world.
  destruct (Processed.processedIds (tracker w)) as [ids|] eqn:Hids.
  - rewrite Hw, Hp. rewrite (consumedIds_tracker w ids Hids).
    unfold consumedIds, store. simpl. split; intros i Hi;
      apply list_elem_of_In, filter_In in Hi as [Hi Hinc].
    + apply bool_decide_eq_true in Hinc. exact Hinc.
    + apply list_elem_of_In. exact Hi.
  - rewrite (consumedIds_tracker_None w Hids). split; intros i Hi; inversion Hi.
Qed.

Lemma cleanup_prunes_tracker_witness :
  let env := env_at 1000000000 (exit_ok "Note A") in
  let w := world_of (fragments 3) (Some (tracker_of ["id-1"; "id-2"; "id-gone"])) in
  let w' := run (cleanup env 7) w in
  store w' = [fragment 3] ∧ consumedIds w' ⊆ map id (store w').
Proof.
  intros env w. split; [reflexivity|].
  exact (proj1 (cleanup_prunes_tracker env 7 w eq_refl eq_refl)).
Defined.

(** X21. Limiting keeps the most recent fragments: for a positive
    [maxCount], once the store is saved it holds the last [maxCount]
    fragments, in order, or all of them when there are no more than that. *)
Theorem limit_keeps_most_recent (env : Env) (maxCount : Z) (w : World) :
  0 < maxCount → writeWebhooksFails env = false →
  let w' := run (limitWebhooks env maxCount) w in
  store w' = drop (length (store w) - Z.to_nat maxCount) (store w)
  ∧ (length (store w') ≤ Z.to_nat maxCount)%nat.
Proof.
  intros Hpos Hw. simpl.
  assert (Hs : store (run (limitWebhooks env maxCount) w)
               = drop (length (store w) - Z.to_nat maxCount) (store w)).
  { rewrite limitWebhooks_world, Hw.
    destruct (maxCount <? Z.of_nat (length (store w))) eqn:Hlt.
    - apply Z.ltb_lt in Hlt.
      assert (Hstore : ∀ w1, webhooksFile w1
                = Some (slice_from (- maxCount) (store w)) →
                store w1 = drop (length (store w) - Z.to_nat maxCount) (store w)).
      { intros w1 H1. unfold store at 1. rewrite H1. simpl. unfold slice_from.
        destruct (- maxCount <? 0) eqn:Hneg; [|apply Z.ltb_ge in Hneg; lia].
        f_equal. lia. }
      simpl. destruct (Processed.processedIds (tracker w)); [|apply Hstore; reflexivity].
      destruct (writeProcessedFails env); apply Hstore; reflexivity.
    - apply Z.ltb_ge in Hlt.
      replace (length (store w) - Z.to_nat maxCount)%nat with 0%nat by lia.
      reflexivity. }
  split; [exact Hs|]. rewrite Hs, length_drop. lia.
Qed.

Lemma limit_keeps_most_recent_witness :
  let env := env_answering (exit_ok "Note A") in
  let w := world_of (fragments 5) None in
  store (run (limitWebhooks env 2) w) = [fragment 4; fragment 5].
Proof.
  intros env w.
  assert (Hpos : 0 < 2) by lia.
  rewrite (proj1 (limit_keeps_most_recent env 2 w Hpos eq_refl)). reflexivity.
Defined.

(** X22. A limit of zero removes nothing: [slice(-0)] is the whole list, so
    that [limitWebhooks(0)] keeps every fragment; a negative limit [-k]
    drops the [k] oldest fragments and keeps the rest. *)
Theorem limit_not_positive (env : Env) (maxCount : Z) (w : World) :
  maxCount ≤ 0 → writeWebhooksFails env = false →
  store (run (limitWebhooks env maxCount) w) = drop (Z.to_nat (- maxCount)) (store w).
Proof.
  intros Hle Hw. rewrite limitWebhooks_world, Hw.
  destruct (maxCount <? Z.of_nat (length (store w))) eqn:Hlt.
  - assert (Hstore : ∀ w1, webhooksFile w1
              = Some (slice_from (- maxCount) (store w)) →
              store w1 = drop (Z.to_nat (- maxCount)) (store w)).
    { intros w1 H1. unfold store at 1. rewrite H1. simpl. unfold slice_from.
      destruct (- maxCount <? 0) eqn:Hneg; [apply Z.ltb_lt in Hneg; lia|].
      destruct (Z.le_gt_cases (- maxCount) (Z.of_nat (length (store w)))) as [H|H].
      - f_equal. lia.
      - rewrite !drop_ge by lia. reflexivity. }
    simpl. destruct (Processed.processedIds (tracker w)); [|apply Hstore; reflexivity].
    destruct (writeProcessedFails env); apply Hstore; reflexivity.
  - apply Z.ltb_ge in Hlt.
    assert (Hlen : length (store w) = 0%nat) by lia.
    destruct (store w); [|discriminate]. rewrite drop_nil. reflexivity.
Qed.

Lemma limit_not_positive_witness :
  let env := env_answering (exit_ok "Note A") in
  let w := world_of (fragments 5) None in
  store (run (limitWebhooks env 0) w) = fragments 5.
Proof.
  intros env w.
  assert (Hle : 0 ≤ 0) by lia.
  rewrite (limit_not_positive env 0 w Hle eq_refl). reflexivity.
Defined.

(** X23. Resetting the tracker makes every stored fragment unconsumed again,
    while the synthesis state keeps the last synthesized text: the next ticks
    go through the whole store once more. *)
Theorem reset_unconsumes_everything (env : Env) (w : World) :
  writeProcessedFails env = false →
  let w' := run (resetProcessed env) w in
  unconsumed w' = store w ∧ store w' = store w ∧ stateFile w' = stateFile w.
Proof.
  intros Hp. unfold run, resetProcessed, saveProcessed, writeFile. rewrite Hp. simpl.
  repeat split. unfold unconsumed, consumedIds. simpl. apply unprocessedOf_nil.
Qed.

Lemma reset_unconsumes_everything_witness :
  let env := env_answering (exit_ok "Note A") in
  let w := world_of (fragments 2) (Some (tracker_of ["id-1"; "id-2"])) in
  unconsumed w = [] ∧ unconsumed (run (resetProcessed env) w) = fragments 2.
Proof.
  intros env w. split; [reflexivity|].
  rewrite (proj1 (reset_unconsumes_everything env w eq_refl)). reflexivity.
Defined.

End Maintenance.

(** ** Consistency of store and tracker *)

Section Frame.

Context (R : World → World → Prop) `{!Reflexive R} `{!Transitive R}.

Lemma preserves_ret {A} (a : A) : preserves R (mret a).
Proof. intros w. apply reflexivity. Qed.

Lemma preserves_throw {A} (e : Error) : preserves R (@throw A e).
Proof. intros w. apply reflexivity. Qed.

Lemma preserves_liftC {A} (c : Completion A) : preserves R (liftC c).
Proof. intros w. apply reflexivity. Qed.

Lemma preserves_read {A} (f : World → A) : preserves R (λ w, (Normal (f w), w)).
Proof. intros w. apply reflexivity. Qed.

Lemma preserves_bind {A B} (m : IO A) (f : A → IO B) :
  preserves R m → (∀ a, preserves R (f a)) → preserves R (m ≫= f).
Proof.
  intros Hm Hf w. unfold run, mbind, IO_bind. specialize (Hm w). unfold run in Hm.
  destruct (m w) as [[a|e] w1]; simpl in *; [|exact Hm].
  etransitivity; [exact Hm|]. apply Hf.
Qed.

Lemma preserves_try_catch {A} (body : IO A) (handler : Error → IO A) :
  preserves R body → (∀ e, preserves R (handler e)) →
  preserves R (try_catch body handler).
Proof.
  intros Hm Hf w. unfold run, try_catch. specialize (Hm w). unfold run in Hm.
  destruct (body w) as [[a|e] w1]; simpl in *; [exact Hm|].
  etransitivity; [exact Hm|]. apply Hf.
Qed.

Lemma preserves_writeFile (fails : bool) (update : World → World) :
  (∀ w, R w (update w)) → preserves R (writeFile fails update).
Proof.
  intros H w. unfold run, writeFile. destruct fails; simpl; [apply reflexivity|apply H].
Qed.

End Frame.

Section Consistency.

Global Instance same_store_and_tracker_refl : Reflexive same_store_and_tracker.
Proof. intros w. split; reflexivity. Qed.

Global Instance same_store_and_tracker_trans : Transitive same_store_and_tracker.
Proof. intros w1 w2 w3 [H1 H2] [H3 H4]. split; congruence. Qed.

(** Splits a computation that leaves store and tracker alone into its
    steps. *)
Ltac frame_both :=
  repeat first
    [ apply preserves_ret; tc_solve
    | apply preserves_throw; tc_solve
    | apply preserves_liftC; tc_solve
    | apply preserves_read; tc_solve
    | apply preserves_writeFile; [tc_solve | intros ?; split; reflexivity]
    | apply preserves_bind; [tc_solve | | intros ?]
    | apply preserves_try_catch; [tc_solve | | intros ?]
    | match goal with
      | |- preserves _ (if ?b then _ else _) => destruct b
      | |- preserves _ (match ?x with _ => _ end) => destruct x
      end ].

Lemma processBatch_keeps_both (env : Env) (mergedText : string) (nextText : Value)
    (outputPath : option string) :
  preserves same_store_and_tracker (processBatch env mergedText nextText outputPath).
Proof.
  unfold processBatch, loadState, buildPrompt, loadUserStyle, callLLM,
    appendToOutput, saveState.
  frame_both.
  intros w. unfold run, appendFile. destruct (appendFails env); split; reflexivity.
Qed.

Lemma consistent_ext (w w' : World) :
  same_store_and_tracker w w' → consistent w → consistent w'.
Proof.
  intros [H1 H2]. unfold consistent, store, consumedIds. rewrite H1, H2. tauto.
Qed.

Lemma NoDup_map_filter (p : Webhook → bool) (l : list Webhook) :
  NoDup (map id l) → NoDup (map id (List.filter p l)).
Proof.
  induction l as [|x l IH]; simpl; [auto|].
  intros [Hx Hnd]%NoDup_cons. destruct (p x); simpl; [|auto].
  apply NoDup_cons. split; [|auto]. intros Hin. apply Hx.
  apply list_elem_of_fmap in Hin as (y & -> & Hy).
  apply list_elem_of_In, filter_In in Hy as [Hy _].
  apply list_elem_of_fmap_2, list_elem_of_In. exact Hy.
Qed.

Lemma NoDup_map_drop (k : nat) (l : list Webhook) :
  NoDup (map id l) → NoDup (map id (drop k l)).
Proof.
  revert k. induction l as [|x l IH]; intros k; [destruct k; auto|].
  destruct k as [|k]; [auto|]. simpl. intros [_ Hnd]%NoDup_cons. auto.
Qed.

Lemma NoDup_map_take (k : nat) (l : list Webhook) :
  NoDup (map id l) → NoDup (map id (take k l)).
Proof.
  revert k. induction l as [|x l IH]; intros k; [destruct k; auto|].
  destruct k as [|k]; simpl; [constructor|].
  intros [Hx Hnd]%NoDup_cons. apply NoDup_cons. split; [|auto].
  intros Hin. apply Hx. apply list_elem_of_fmap in Hin as (y & -> & Hy).
  apply list_elem_of_fmap_2. exact (subseteq_take k l y Hy).
Qed.

(** A world whose tracker was pruned to the fragments that remain. *)
Lemma consistent_pruned (w w' : World) (remaining : list Webhook) (ids : list string) :
  NoDup (map id remaining) → NoDup ids →
  webhooksFile w' = Some remaining →
  processedFile w' = Some (pruned_tracker w remaining ids) →
  consistent w'.
Proof.
  intros Hr Hi Hw Hp. unfold consistent, store, consumedIds. rewrite Hw, Hp. simpl.
  split; [exact Hr|].
  split; [apply NoDup_ListNoDup, List.NoDup_filter, NoDup_ListNoDup; exact Hi|].
  intros i Hin. apply list_elem_of_In, filter_In in Hin as [_ Hinc].
  apply bool_decide_eq_true in Hinc. exact Hinc.
Qed.

(** A world whose tracker took the ids of a batch of unconsumed fragments. *)
Lemma consistent_marked (env : Env) (w w' : World) (batchItems : list Webhook) :
  consistent w → NoDup (map id batchItems) → batchItems ⊆ unconsumed w →
  webhooksFile w' = webhooksFile w →
  processedFile w' = Some (committed_tracker env w batchItems) →
  consistent w'.
Proof.
  intros (Hs & Hc & Hsub) Hnd Hitems Hw Hp.
  unfold consistent, store, consumedIds. rewrite Hw, Hp. simpl.
  fold (store w). split; [exact Hs|]. split.
  - apply NoDup_app. split; [exact Hc|]. split; [|exact Hnd].
    intros i Hi Hin. apply list_elem_of_fmap in Hin as (f & -> & Hf).
    apply Hitems, unprocessedOf_elem in Hf as [_ Hf]. exact (Hf Hi).
  - intros i [Hi|Hi]%elem_of_app; [apply Hsub; exact Hi|].
    apply list_elem_of_fmap in Hi as (f & -> & Hf).
    apply Hitems, unprocessedOf_elem in Hf as [Hf _].
    apply list_elem_of_fmap_2. exact Hf.
Qed.

Lemma batch_items_admissible (w : World) (b : Batch) :
  consistent w → result getUnprocessedBatch w = Normal (Some b) →
  NoDup (map id (items b)) ∧ items b ⊆ unconsumed w.
Proof.
  intros (Hs & _) Hb. rewrite getUnprocessedBatch_result in Hb.
  apply batchOf_Some in Hb as (-> & _). split.
  - apply NoDup_map_take. unfold unconsumed, unprocessedOf.
    apply NoDup_map_filter. exact Hs.
  - apply subseteq_take.
Qed.

Lemma webhook_run (env : Env) (body : Value) (w : World) :
  run (webhook env body) w = run (addWebhook env body) w.
Proof.
  unfold webhook, run, try_catch, mbind, IO_bind.
  destruct (addWebhook env body w) as [[r|e] w1]; reflexivity.
Qed.

Lemma consistent_ingested (env : Env) (data : Value) (w : World) :
  consistent w → freshId env ∉ map id (store w) →
  consistent (run (addWebhook env data) w).
Proof.
  intros (Hs & Hc & Hsub) Hfresh. unfold addWebhook, run.
  destruct (truthy data); simpl; [|repeat split; assumption].
  unfold mbind, IO_bind, loadWebhooks, saveWebhooks, writeFile. simpl.
  destruct (writeWebhooksFails env); simpl; [repeat split; assumption|].
  unfold consistent, store, consumedIds. simpl. fold (store w). fold (consumedIds w).
  rewrite map_app. simpl. split; [|split; [exact Hc|]].
  - apply NoDup_app. split; [exact Hs|]. split; [|apply NoDup_singleton].
    intros i Hi ->%list_elem_of_singleton. exact (Hfresh Hi).
  - intros i Hi. apply elem_of_app. left. apply Hsub. exact Hi.
Qed.

(** X24. Store and tracker stay consistent: if the stored fragments have
    distinct ids, no id is consumed twice and every consumed id belongs to a
    stored fragment, then the same holds after every operation of the system,
    provided ingestion gets a fresh id, a batch marked by hand consists of
    unconsumed fragments with distinct ids, and cleanup and limiting can save
    the tracker. *)
Theorem consistency_preserved (env : Env) (op : Op) (w : World) :
  consistent w → admissible env op w → consistent (exec env op w).
Proof.
  intros Hc Ha.
  assert (Hframe : ∀ A (m : IO A), preserves same_store_and_tracker m →
                                   consistent (run m w)).
  { intros A m Hm. exact (consistent_ext w _ (Hm w) Hc). }
  destruct op; simpl in *.
  - (* addWebhook *) apply consistent_ingested; assumption.
  - rewrite getUnprocessedBatch_pure. exact Hc.
  - (* markBatchProcessed *)
    destruct Ha as [Hnd Hsub]. rewrite markBatchProcessed_world.
    destruct (_ || _); [exact Hc|].
    eapply consistent_marked; eauto.
  - apply Hframe. unfold getStats, loadWebhooks, loadProcessed. frame_both.
  - (* cleanup *)
    rewrite cleanup_world, Ha.
    destruct (Processed.processedIds (tracker w)) as [ids|] eqn:Hids; [|exact Hc].
    simpl. destruct (writeWebhooksFails env); [exact Hc|].
    destruct Hc as (Hs & Hn & _). rewrite (consumedIds_tracker w ids Hids) in Hn.
    eapply consistent_pruned; [| exact Hn | reflexivity | reflexivity].
    apply NoDup_map_filter. exact Hs.
  - (* limitWebhooks *)
    rewrite limitWebhooks_world, Ha.
    destruct (maxCount <? _); [|exact Hc].
    simpl. destruct (writeWebhooksFails env); [exact Hc|].
    destruct Hc as (Hs & Hn & Hsub).
    assert (Hl : NoDup (map id (slice_from (- maxCount) (store w))))
      by (apply NoDup_map_drop; exact Hs).
    destruct (Processed.processedIds (tracker w)) as [ids|] eqn:Hids.
    + rewrite (consumedIds_tracker w ids Hids) in Hn.
      eapply consistent_pruned; [exact Hl | exact Hn | reflexivity | reflexivity].
    + pose proof (consumedIds_tracker_None w Hids) as Hnone.
      unfold consistent, store. unfold consumedIds in *. simpl.
      rewrite Hnone. split; [exact Hl|]. split; [constructor|].
      intros i Hi. inversion Hi.
  - (* resetProcessed *)
    unfold run, resetProcessed, saveProcessed, writeFile.
    destruct (writeProcessedFails env); simpl; [exact Hc|].
    destruct Hc as (Hs & _). unfold consistent, store, consumedIds. simpl.
    split; [exact Hs|]. split; [constructor|]. intros i Hi. inversion Hi.
  - apply Hframe. unfold getAllUnprocessed, loadWebhooks, loadProcessed. frame_both.
  - apply Hframe. apply processBatch_keeps_both.
  - apply Hframe. unfold resetState, saveState. frame_both.
  - apply Hframe. unfold getStatus, loadState. frame_both.
  - (* processWebhooks *)
    destruct (tick_cases env w)
      as [Hw|[(b & Hb & _ & Hw)|[(prompt & _ & Hw)|(b & prompt & content & Hb & _ & _ & Hw)]]];
      rewrite Hw.
    + exact Hc.
    + destruct (batch_items_admissible w b Hc Hb) as [Hnd Hsub].
      rewrite markBatchProcessed_world. destruct (_ || _); [exact Hc|].
      eapply consistent_marked; eauto.
    + apply (consistent_ext w); [split; reflexivity | exact Hc].
    + destruct (batch_items_admissible w b Hc Hb) as [Hnd Hsub].
      unfold after_commit.
      destruct (appendFails env); [destruct (writeNotesFails env)|]; simpl;
        try (apply (consistent_ext w); [split; reflexivity | exact Hc]);
        destruct (writeStateFails env); simpl;
        try (apply (consistent_ext w); [split; reflexivity | exact Hc]);
        destruct (writeProcessedFails env); simpl;
        try (apply (consistent_ext w); [split; reflexivity | exact Hc]);
        (eapply consistent_marked; eauto).
  - (* POST /webhook *) rewrite webhook_run. apply consistent_ingested; assumption.
  - apply Hframe. intros w0. split; reflexivity.
  - apply Hframe. intros w0. split; reflexivity.
  - apply Hframe. intros w0. split; reflexivity.
Qed.

Lemma consistency_preserved_witness :
  let env := env_at 1000000000 (exit_ok "Note A") in
  let w := world_of (fragments 3) (Some (tracker_of ["id-1"])) in
  consistent w ∧ admissible env (Cleanup 7) w ∧ consistent (exec env (Cleanup 7) w).
Proof.
  intros env w.
  assert (Hc : consistent w).
  { split; [|split].
    - apply (bool_decide_unpack _). vm_compute. exact I.
    - apply (bool_decide_unpack _). vm_compute. exact I.
    - apply (bool_decide_unpack _). vm_compute. exact I. }
  assert (Ha : admissible env (Cleanup 7) w) by reflexivity.
  split; [exact Hc|]. split; [exact Ha|].
  exact (consistency_preserved env (Cleanup 7) w Hc Ha).
Defined.

End Consistency.

(** ** Statistics, the final read and the endpoints *)

Section Endpoints.

Lemma consumed_count (ids : list string) (webhooks : list Webhook) :
  NoDup (map id webhooks) → NoDup ids → ids ⊆ map id webhooks →
  length (List.filter (λ f, includes ids (id f)) webhooks) = length ids.
Proof.
  intros Hs Hi Hsub. rewrite <- (length_map id).
  apply Permutation_length, NoDup_Permutation.
  - apply NoDup_map_filter. exact Hs.
  - exact Hi.
  - intros i. split.
    + intros (f & -> & Hf)%list_elem_of_fmap.
      apply list_elem_of_In, filter_In in Hf as [_ Hf].
      apply bool_decide_eq_true in Hf. exact Hf.
    + intros Hin. destruct (proj1 (list_elem_of_fmap id webhooks i) (Hsub i Hin))
        as (f & -> & Hf).
      apply list_elem_of_fmap_2, list_elem_of_In, filter_In.
      split; [apply list_elem_of_In; exact Hf|]. apply bool_decide_eq_true_2. exact Hin.
Qed.

(** X25. The statistics count the pending fragments right when store and
    tracker are consistent: [pending], computed as the size of the store less
    the number of consumed ids, is then the number of unconsumed fragments. *)
Theorem stats_pending_counts_unconsumed (w : World) :
  consistent w →
  ∃ stats, result getStats w = Normal stats
           ∧ total stats = Z.of_nat (length (store w))
           ∧ processed stats = Z.of_nat (length (consumedIds w))
           ∧ pending stats = Z.of_nat (length (unconsumed w)).
Proof.
  intros (Hs & Hi & Hsub). eexists. split; [reflexivity|]. simpl.
  fold (store w).
  assert (Hp : (match Processed.processedIds (default defaultProcessed (processedFile w)) with
                | Some ids => Z.of_nat (length ids)
                | None => 0
                end) = Z.of_nat (length (consumedIds w))).
  { unfold consumedIds. destruct (Processed.processedIds _); reflexivity. }
  rewrite Hp. split; [reflexivity|]. split; [reflexivity|].
  pose proof (List.filter_length (λ f, includes (consumedIds w) (id f)) (store w)) as Hl.
  rewrite (consumed_count _ _ Hs Hi Hsub) in Hl.
  unfold unconsumed, unprocessedOf. fold (store w). lia.
Qed.

Lemma stats_pending_counts_unconsumed_witness :
  let w := world_of (fragments 3) (Some (tracker_of ["id-2"])) in
  consistent w
  ∧ ∃ stats, result getStats w = Normal stats ∧ pending stats = 2.
Proof.
  intros w.
  assert (Hc : consistent w).
  { split; [|split]; apply (bool_decide_unpack _); vm_compute; exact I. }
  split; [exact Hc|].
  destruct (stats_pending_counts_unconsumed w Hc) as (stats & Hr & _ & _ & Hp).
  exists stats. split; [exact Hr|]. rewrite Hp. reflexivity.
Defined.

Lemma trim_all_white (s : string) : all_white s = true → trim s = "".
Proof.
  intros H. unfold trim.
  assert (Hs : trimStart s = "").
  { induction s as [|c s IH]; [reflexivity|].
    simpl in *. apply andb_true_iff in H as [Hc Hs]. rewrite Hc. auto. }
  rewrite Hs. reflexivity.
Qed.

Lemma join_empties_all_white {A} (l : list A) :
  all_white (join " " (map (λ _, "") l)) = true.
Proof.
  unfold join. induction l as [|x l IH]; [reflexivity|].
  destruct l as [|y l]; [reflexivity|]. exact IH.
Qed.

(** X26. The final read loses the text: [getAllUnprocessed] returns all the
    unconsumed fragments and their number, but a merged text made of
    separators only, which trims to the empty string, whatever the payloads
    are. *)
Theorem getAllUnprocessed_text_is_blank (w : World) :
  ∃ r, result getAllUnprocessed w = Normal r
       ∧ all_items r = unconsumed w
       ∧ count r = length (unconsumed w)
       ∧ trim (all_mergedText r) = "".
Proof.
  assert (Hj : ∀ l : list Webhook,
             Array_join mergeSeparator (map (λ item, webhook_text item) l)
             = Normal (join " " (map (λ _, "") l))).
  { intros l. unfold Array_join, mergeSeparator, webhook_text.
    assert (H : mapM join_elem (map (λ _ : Webhook, Undefined) l)
                = Normal (map (λ _, "") l)).
    { induction l as [|x l IH]; [reflexivity|]. simpl. rewrite IH. reflexivity. }
    rewrite H. reflexivity. }
  unfold result, getAllUnprocessed, mbind, IO_bind, loadWebhooks, loadProcessed, liftC.
  fold (consumedIds w). fold (unconsumed w). rewrite Hj.
  eexists. split; [reflexivity|]. simpl. repeat split.
  apply trim_all_white, join_empties_all_white.
Qed.

(** X27. What POST /webhook answers: a server error when a truthy payload
    cannot be saved, and success otherwise, also for a falsy payload, which
    is dropped without being stored. *)
Theorem webhook_answer (env : Env) (body : Value) (w : World) :
  result (webhook env body) w
  = Normal (if truthy body && writeWebhooksFails env
            then ServerError "Server error"
            else Success "Webhook received" None)
  ∧ (truthy body = false → run (webhook env body) w = w).
Proof.
  unfold result, run, webhook, try_catch, mbind, IO_bind, addWebhook.
  destruct (truthy body); simpl; [|auto].
  unfold mbind, IO_bind, loadWebhooks, saveWebhooks, writeFile. simpl.
  destruct (writeWebhooksFails env); simpl; split; try reflexivity; discriminate.
Qed.

Lemma webhook_answer_witness :
  let env := env_answering (exit_ok "Note A") in
  let w := world_of (fragments 2) None in
  truthy (Num 0) = false
  ∧ result (webhook env (Num 0)) w = Normal (Success "Webhook received" None)
  ∧ run (webhook env (Num 0)) w = w.
Proof.
  intros env w. split; [reflexivity|].
  destruct (webhook_answer env (Num 0) w) as [Hr Hw].
  split; [exact Hr | exact (Hw eq_refl)].
Defined.

(** X28. The destination of a session: start-recording makes the notes go to
    the path of the current file, to the fallback path when the former is
    missing or empty, and to final_notes.md when both are; the answer carries
    that path, and nothing else of the world changes. *)
Theorem start_recording_sets_destination (currentFilePath fallbackPath : option string)
    (w : World) :
  let w' := run (start_recording currentFilePath fallbackPath) w in
  destination w' = chosen_path currentFilePath fallbackPath
  ∧ result (start_recording currentFilePath fallbackPath) w
    = Normal (Success "Recording started"
                (Some (chosen_path currentFilePath fallbackPath)))
  ∧ w' = set_currentNotesFilePath (Some (chosen_path currentFilePath fallbackPath)) w.
Proof.
  unfold run, result, start_recording, destination, chosen_path, nonempty, path_or.
  destruct currentFilePath as [[|c p]|]; destruct fallbackPath as [[|c' p']|];
    simpl; repeat split.
Qed.

End Endpoints.

(** ** Continuity between ticks *)

Section Continuity.

Lemma buildPrompt_result (last main : string) (next : Value) (w : World) (prompt : string) :
  result (buildPrompt last main next) w = Normal prompt →
  ∃ style next', prompt = prompt_text style (replace_quotes last) (replace_quotes main) next'.
Proof.
  unfold result, buildPrompt, mbind, IO_bind, loadUserStyle, liftC. simpl.
  destruct (escape "nextText" (or_empty next)) as [next'|e]; simpl; [|discriminate].
  intros [= <-]. eauto.
Qed.

(** X29. Continuity context: after a tick that committed the text returned
    by the gateway, the prompt of the next tick, whatever batch it is built
    for, carries that text, escaped, as its "last one processed". *)
Theorem next_prompt_carries_last_note (env env' : Env) (w : World) (b : Batch)
    (prompt content prompt' : string) :
  result getUnprocessedBatch w = Normal (Some b) →
  tick_prompt env w = Some prompt →
  synthesized env prompt content →
  appendFails env = false → writeStateFails env = false →
  tick_prompt env' (run (processWebhooks env) w) = Some prompt' →
  ∃ style main next,
    prompt' = prompt_text style (replace_quotes content) main next.
Proof.
  intros Hb Hp Hs Ha Hst Hp'.
  rewrite (tick_synthesized env w b prompt content Hb Hp Hs) in Hp'.
  destruct (tick_prompt_Some env' _ prompt' Hp') as (b' & _ & _ & Hbp & _).
  apply buildPrompt_result in Hbp as (style & next & ->).
  exists style, (replace_quotes (mergedText b')), next. f_equal.
  unfold after_commit. rewrite Ha, Hst. simpl.
  destruct (writeProcessedFails env); reflexivity.
Qed.

Lemma next_prompt_carries_last_note_witness :
  let env := env_answering (exit_ok "Note A") in
  let w := world_of (fragments 12) None in
  ∃ prompt' style main next,
    tick_prompt env (run (processWebhooks env) w) = Some prompt'
    ∧ prompt' = prompt_text style (replace_quotes "Note A") main next.
Proof.
  intros env w.
  destruct (result getUnprocessedBatch w) as [[b|]|e] eqn:Hb;
    try (vm_compute in Hb; discriminate).
  destruct (tick_prompt env w) as [prompt|] eqn:Hp; [|vm_compute in Hp; discriminate].
  assert (Hs : synthesized env prompt "Note A").
  { split; [discriminate|]. exists "sk-test". repeat split. discriminate. }
  destruct (tick_prompt env (run (processWebhooks env) w)) as [prompt'|] eqn:Hp';
    [|vm_compute in Hp'; discriminate].
  destruct (next_prompt_carries_last_note env env w b prompt "Note A" prompt'
              Hb Hp Hs eq_refl eq_refl Hp') as (style & main & next & Heq).
  exists prompt', style, main, next. split; [reflexivity | exact Heq].
Defined.

End Continuity.

(** ** A text that [join] cannot convert *)

Section Unprintable.

(** A payload whose [text] is an object with an own [toString] property is
    extracted as that object; the join of the Batcher then throws, and the
    tick leaves the world as it is. *)
Example scenario_unprintable_text :
  let env := env_answering (exit_ok "Note A") in
  let odd := {| id := "id-1"; data := Obj [("text", Obj [("toString", Num 1)])];
                receivedAt := 1 |} in
  let w := world_of [odd] None in
  extractTextFromData (data odd) = Normal (Obj [("toString", Num 1)])
  ∧ result getUnprocessedBatch w
    = Throw (TypeError "Cannot convert object to primitive value")
  ∧ run (processWebhooks env) w = w.
Proof. repeat split. Qed.

End Unprintable.
